(** * bn-list-notify: the BinanceMonitorDO detection cycle

    A shallow embedding of [src/binance-monitor.ts] (class
    [BinanceMonitorDO]) and the properties of its wake handler [alarm],
    its feed client [fetchAnnouncements], its notifier [notifyWebhooks]
    and its state restoration at construction.

    Conventions of the embedding:
    - a JavaScript string is the list of its UTF-16 code units;
    - announcement ids are integers ([Z]);
    - the network and the clock are an oracle ([Env]): the response to each
      outgoing request, the order in which pending webhook deliveries
      settle, and the value of each clock reading; every request settles;
    - the durable storage of the actor is a record of optional values; its
      operations ([put], [setAlarm], [deleteAlarm]) are total updates;
    - the actor handles one event at a time, so no other request changes
      its fields while a cycle runs;
    - an [async] method is a computation in a state-and-exception monad
      that also returns the list of effects it performed, in order. *)

From Stdlib Require Import ZArith NArith List Bool Lia String Ascii Arith.
From Stdlib Require Import Permutation.
Import ListNotations.

Set Implicit Arguments.

(** ** JavaScript strings *)

Module JS.

Local Open Scope N_scope.

Definition code_unit := N.
Definition jsstring := list code_unit.

(** A source-code literal (ASCII only). *)
Definition lit (s : string) : jsstring :=
  List.map N_of_ascii (list_ascii_of_string s).

Fixpoint startsWith (s p : jsstring) : bool :=
  match p, s with
  | [], _ => true
  | _ :: _, [] => false
  | x :: p', y :: s' => N.eqb x y && startsWith s' p'
  end.

(** [String.prototype.includes]: [p] occurs in [s] as a contiguous run. *)
Fixpoint includes (s p : jsstring) : bool :=
  startsWith s p ||
  match s with
  | [] => false
  | _ :: s' => includes s' p
  end.

(** A string is truthy when it is not empty. *)
Definition truthy (s : jsstring) : bool :=
  match s with [] => false | _ :: _ => true end.

Definition in_range (lo hi c : N) : bool := N.leb lo c && N.leb c hi.

Definition is_lead_surrogate (c : code_unit) : bool := in_range 0xD800 0xDBFF c.
Definition is_trail_surrogate (c : code_unit) : bool := in_range 0xDC00 0xDFFF c.

(** The characters [encodeURIComponent] leaves alone: letters, digits
    and [- _ . ! ~ * ' ( )]. *)
Definition uriUnreserved (c : code_unit) : bool :=
  in_range 65 90 c || in_range 97 122 c || in_range 48 57 c ||
  existsb (N.eqb c) [45; 95; 46; 33; 126; 42; 39; 40; 41].

Definition utf8 (cp : N) : list N :=
  if N.ltb cp 0x80 then [cp]
  else if N.ltb cp 0x800 then
    [N.lor 0xC0 (N.shiftr cp 6); N.lor 0x80 (N.land cp 0x3F)]
  else if N.ltb cp 0x10000 then
    [N.lor 0xE0 (N.shiftr cp 12);
     N.lor 0x80 (N.land (N.shiftr cp 6) 0x3F);
     N.lor 0x80 (N.land cp 0x3F)]
  else
    [N.lor 0xF0 (N.shiftr cp 18);
     N.lor 0x80 (N.land (N.shiftr cp 12) 0x3F);
     N.lor 0x80 (N.land (N.shiftr cp 6) 0x3F);
     N.lor 0x80 (N.land cp 0x3F)].

Definition hexDigit (d : N) : code_unit :=
  if N.ltb d 10 then 48 + d else 55 + d.

Definition percent (octet : N) : jsstring :=
  [37; hexDigit (N.shiftr octet 4); hexDigit (N.land octet 0xF)].

Definition escape (cp : N) : jsstring := List.flat_map percent (utf8 cp).

(** [encodeURIComponent]: [None] is a thrown [URIError], which happens
    exactly on an unpaired surrogate. *)
Fixpoint encodeURIComponent (s : jsstring) : option jsstring :=
  match s with
  | [] => Some []
  | c :: tl =>
      if uriUnreserved c then option_map (cons c) (encodeURIComponent tl)
      else if is_trail_surrogate c then None
      else if is_lead_surrogate c then
        match tl with
        | d :: tl' =>
            if is_trail_surrogate d then
              let cp := (c - 0xD800) * 0x400 + (d - 0xDC00) + 0x10000 in
              option_map (app (escape cp)) (encodeURIComponent tl')
            else None
        | [] => None
        end
      else option_map (app (escape c)) (encodeURIComponent tl)
  end.

(** [s.match(/([^\/]+)$/)]: the leftmost position from which the rest of
    the string is a non-empty run without a slash. *)
Definition noSlash (s : jsstring) : bool :=
  forallb (fun c => negb (N.eqb c 47)) s.

Fixpoint matchLastSegment (s : jsstring) : option jsstring :=
  match s with
  | [] => None
  | _ :: tl => if noSlash s then Some s else matchLastSegment tl
  end.

End JS.

Import JS.

(** ** Data model *)

(** [interface Webhook { secret: string; url: string }] *)
Module Webhook.
Record t := mk { secret : jsstring; url : jsstring }.
End Webhook.

(** [type Announcement = { id: number; title: string; code: string;
    publishDate: string }] *)
Module Announcement.
Record t := mk { id : Z; title : jsstring; code : jsstring; publishDate : jsstring }.
End Announcement.

(** The private fields of a [BinanceMonitorDO] instance ([state] and [env]
    are the runtime's handles; [BINANCE_API] is the constant below). *)
Record DO := mkDO {
  webhooks : list Webhook.t;
  watchList : list jsstring;
  lastAnnouncementId : option Z;       (* number | null *)
  _isMonitoring : bool;
  pollingInterval : Z
}.

(** [this.state.storage]: the four persisted keys and the single alarm. *)
Record Storage := mkStorage {
  st_webhooks : option (list Webhook.t);
  st_lastAnnouncementId : option Z;
  st_isMonitoring : option bool;
  st_watchList : option (list jsstring);
  st_alarm : option Z
}.

(** Values that can be thrown. *)
Inductive JSError :=
| URIError                      (* encodeURIComponent on an unpaired surrogate *)
| NetworkError                  (* a rejected fetch() *)
| SyntaxError                   (* a rejected response.json() *)
| Error (message : jsstring).   (* new Error(message) *)

(** *** The outside world *)

(** The body of a feed response, at the type the code reads it:
    [data?.data?.catalogs]. *)
Record FeedData := mkFeedData { catalogs : option (list Announcement.t) }.
Record FeedBody := mkFeedBody { data : option FeedData }.

Inductive JsonResult :=
| JsonRejected                  (* response.json() rejects *)
| JsonNullish                   (* the body is null *)
| JsonValue (body : FeedBody).

Inductive FeedResponse :=
| FeedRejected                                   (* transport error *)
| FeedStatus (ok : bool) (json : JsonResult).

Inductive PostResponse :=
| PostRejected                                   (* transport error *)
| PostStatus (ok : bool) (statusText : jsstring).

Record Env := mkEnv {
  feed : nat -> FeedResponse;   (* the response to the n-th GET *)
  hook : nat -> PostResponse;   (* the response to the n-th POST *)
  sched : nat -> nat;           (* which pending delivery settles next *)
  clock : nat -> Z              (* the n-th reading of the clock, in ms *)
}.

(** The JSON body posted to a subscriber. [timestamp] is the clock reading
    that [new Date().toISOString()] prints. *)
Record Payload := mkPayload {
  timestamp : Z;
  p_title : jsstring;
  p_code : jsstring;
  p_url : jsstring;
  p_publishDate : jsstring
}.

Definition Headers := list (jsstring * jsstring).

(** Observable effects, in the order they happen. *)
Inductive Event :=
| EvGet (url : jsstring)
| EvNotify (a : Announcement.t)                   (* notifyWebhooks is entered *)
| EvPost (req : nat) (url : jsstring) (headers : Headers) (body : Payload)
| EvSettled (req : nat) (delivered : bool)        (* one async delivery finished *)
| EvPutLastAnnouncementId (v : Z)
| EvPutIsMonitoring (b : bool)
| EvSetAlarm (t : Z)
| EvDeleteAlarm
| EvConsoleLog (msg : jsstring)
| EvConsoleError (msg : jsstring) (e : JSError).

(** The actor, its storage, and how much of the oracle has been consumed. *)
Record World := mkWorld {
  this : DO;
  storage : Storage;
  gets : nat;
  posts : nat;
  picks : nat;
  ticks : nat
}.

(** ** The monad of async methods *)

Inductive Completion (A : Type) :=
| Return (a : A)
| Throw (e : JSError).
Arguments Throw {A} e.

Record Run (A : Type) := mkRun {
  completion : Completion A;
  world : World;
  effects : list Event
}.

Definition M (A : Type) := World -> Run A.

Definition ret {A} (a : A) : M A := fun w => mkRun (Return a) w [].

Definition throw {A} (e : JSError) : M A := fun w => mkRun (Throw e) w [].

Definition bind {A B} (m : M A) (f : A -> M B) : M B := fun w =>
  let r := m w in
  match completion r with
  | Return a =>
      let r' := f a (world r) in
      mkRun (completion r') (world r') (effects r ++ effects r')
  | Throw e => mkRun (Throw e) (world r) (effects r)
  end.

(** [try { body } catch (error) { handler }] *)
Definition try_catch {A} (body : M A) (handler : JSError -> M A) : M A := fun w =>
  let r := body w in
  match completion r with
  | Return a => r
  | Throw e =>
      let r' := handler e (world r) in
      mkRun (completion r') (world r') (effects r ++ effects r')
  end.

(** [try { body } finally { fin }]: [fin] always runs; its own exception
    replaces the completion of [body]. *)
Definition try_finally {A} (body : M A) (fin : M unit) : M A := fun w =>
  let r := body w in
  let r' := fin (world r) in
  mkRun (match completion r' with
         | Return _ => completion r
         | Throw e => Throw e
         end)
        (world r') (effects r ++ effects r').

Declare Scope js_scope.
Delimit Scope js_scope with js.
Notation "x <- m ;; k" := (bind m (fun x => k))
  (at level 61, m at next level, right associativity) : js_scope.
Notation "m ;; k" := (bind m (fun _ => k))
  (at level 61, right associativity) : js_scope.
Local Open Scope js_scope.

Definition emit (e : Event) : M unit := fun w => mkRun (Return tt) w [e].

Definition read {A} (f : DO -> A) : M A := fun w => mkRun (Return (f (this w))) w [].

Definition update (f : World -> World) : M unit := fun w => mkRun (Return tt) (f w) [].

Definition set_this (f : DO -> DO) (w : World) : World :=
  mkWorld (f (this w)) (storage w) (gets w) (posts w) (picks w) (ticks w).

Definition set_storage (f : Storage -> Storage) (w : World) : World :=
  mkWorld (this w) (f (storage w)) (gets w) (posts w) (picks w) (ticks w).

Definition set_lastAnnouncementId (v : option Z) (d : DO) : DO :=
  mkDO (webhooks d) (watchList d) v (_isMonitoring d) (pollingInterval d).

Definition set_isMonitoring (b : bool) (d : DO) : DO :=
  mkDO (webhooks d) (watchList d) (lastAnnouncementId d) b (pollingInterval d).

Definition console_error (msg : jsstring) (e : JSError) : M unit :=
  emit (EvConsoleError msg e).

Definition console_log (msg : jsstring) : M unit := emit (EvConsoleLog msg).

(** *** Storage operations *)

Definition storage_put_lastAnnouncementId (v : Z) : M unit :=
  emit (EvPutLastAnnouncementId v) ;;
  update (set_storage (fun s =>
    mkStorage (st_webhooks s) (Some v) (st_isMonitoring s) (st_watchList s) (st_alarm s))).

Definition storage_put_isMonitoring (b : bool) : M unit :=
  emit (EvPutIsMonitoring b) ;;
  update (set_storage (fun s =>
    mkStorage (st_webhooks s) (st_lastAnnouncementId s) (Some b) (st_watchList s) (st_alarm s))).

(** Re-arming replaces any pending alarm. *)
Definition storage_setAlarm (t : Z) : M unit :=
  emit (EvSetAlarm t) ;;
  update (set_storage (fun s =>
    mkStorage (st_webhooks s) (st_lastAnnouncementId s) (st_isMonitoring s) (st_watchList s) (Some t))).

Definition storage_deleteAlarm : M unit :=
  emit EvDeleteAlarm ;;
  update (set_storage (fun s =>
    mkStorage (st_webhooks s) (st_lastAnnouncementId s) (st_isMonitoring s) (st_watchList s) None)).

(** ** The class [BinanceMonitorDO] *)

Definition BINANCE_API : jsstring :=
  lit "https://www.binance.com/bapi/composite/v1/public/cms/article/list/query".

(** The listing marker tested by [alarm]. *)
Definition LISTING_MARKER : jsstring := lit "Binance Will List".

(** [new URLSearchParams({...})] of [fetchAnnouncements]; names and values
    are alphanumeric, so its string form needs no escaping. *)
Definition params : list (jsstring * jsstring) :=
  [(lit "type", lit "1"); (lit "catalogId", lit "48");
   (lit "pageNo", lit "1"); (lit "pageSize", lit "20")].

Fixpoint searchParamsToString (ps : list (jsstring * jsstring)) : jsstring :=
  match ps with
  | [] => []
  | [(k, v)] => k ++ lit "=" ++ v
  | (k, v) :: rest => k ++ lit "=" ++ v ++ lit "&" ++ searchParamsToString rest
  end.

(** [announcement.id === this.lastAnnouncementId] *)
Definition strict_eq (x : Z) (o : option Z) : bool :=
  match o with
  | Some y => Z.eqb x y
  | None => false
  end.

(** [(stored.get(key) as number) || null]: 0 is falsy. *)
Definition number_or_null (v : option Z) : option Z :=
  match v with
  | Some n => if Z.eqb n 0 then None else Some n
  | None => None
  end.

(** [parseInt(env.POLLING_INTERVAL) || 3000]; [None] is [NaN]. *)
Definition number_or (v : option Z) (dflt : Z) : Z :=
  match v with
  | Some n => if Z.eqb n 0 then dflt else n
  | None => dflt
  end.

Definition or_default {A} (v : option A) (dflt : A) : A :=
  match v with Some x => x | None => dflt end.

Definition getAnnouncementUrl (title code : jsstring) : M jsstring :=
  match encodeURIComponent title with
  | Some encodedTitle =>
      ret (lit "https://www.binance.com/zh-CN/support/announcement/"
             ++ encodedTitle ++ lit "-" ++ code)
  | None => throw URIError
  end.

Definition extractAnnouncementCode (url : jsstring) : jsstring :=
  match matchLastSegment url with
  | Some m => m
  | None => []
  end.

(** The headers of one delivery: the content type and, when the subscriber
    has a secret, the secret. *)
Definition headersFor (webhook : Webhook.t) : Headers :=
  (lit "Content-Type", lit "application/json") ::
  (if truthy (Webhook.secret webhook)
   then [(lit "X-Webhook-Secret", Webhook.secret webhook)]
   else []).

(** A delivery whose [fetch] has been issued and not yet settled. *)
Record Pending := mkPending {
  pd_req : nat;
  pd_url : jsstring;
  pd_response : PostResponse
}.

(** What the body of one [async (webhook) => { try ... catch ... }] does
    once its [fetch] settles: nothing on an ok response, a logged error
    otherwise. It never throws. *)
Definition settle (p : Pending) : M unit :=
  try_catch
    (match pd_response p with
     | PostRejected => throw NetworkError
     | PostStatus ok statusText =>
         if negb ok
         then throw (Error (lit "Webhook notification failed: " ++ statusText))
         else ret tt
     end)
    (fun error =>
       console_error (lit "Failed to notify webhook " ++ pd_url p ++ lit ":") error) ;;
  emit (EvSettled (pd_req p) (match pd_response p with
                              | PostStatus true _ => true
                              | _ => false
                              end)).

Fixpoint remove_nth {A} (i : nat) (l : list A) : list A :=
  match l, i with
  | [], _ => []
  | _ :: tl, O => tl
  | x :: tl, S j => x :: remove_nth j tl
  end.

Section Methods.

Variable env : Env.

Definition Date_now : M Z := fun w =>
  mkRun (Return (clock env (ticks w)))
        (mkWorld (this w) (storage w) (gets w) (posts w) (picks w) (S (ticks w)))
        [].

(** [await fetch(url)] of the feed. *)
Definition fetch_get (url : jsstring) : M (bool * JsonResult) := fun w =>
  let w' := mkWorld (this w) (storage w) (S (gets w)) (posts w) (picks w) (ticks w) in
  match feed env (gets w) with
  | FeedRejected => mkRun (Throw NetworkError) w' [EvGet url]
  | FeedStatus ok json => mkRun (Return (ok, json)) w' [EvGet url]
  end.

(** [await response.json()] *)
Definition response_json (json : JsonResult) : M (option FeedBody) :=
  match json with
  | JsonRejected => throw SyntaxError
  | JsonNullish => ret None
  | JsonValue body => ret (Some body)
  end.

Definition fetchAnnouncements : M (list Announcement.t) :=
  try_catch
    (response <- fetch_get (BINANCE_API ++ lit "?" ++ searchParamsToString params) ;;
     if negb (fst response) then throw (Error (lit "Failed to fetch announcements"))
     else
       body <- response_json (snd response) ;;
       (* data?.data?.catalogs || [] *)
       ret (match body with
            | Some b =>
                match data b with
                | Some d => or_default (catalogs d) []
                | None => []
                end
            | None => []
            end))
    (fun error =>
       console_error (lit "Error fetching announcements:") error ;;
       ret []).

(** The synchronous part of one [async (webhook) => ...]: build the
    headers and issue the POST. *)
Definition issue (payload : Payload) (webhook : Webhook.t) : M Pending := fun w =>
  let headers := headersFor webhook in
  mkRun (Return (mkPending (posts w) (Webhook.url webhook) (hook env (posts w))))
        (mkWorld (this w) (storage w) (gets w) (S (posts w)) (picks w) (ticks w))
        [EvPost (posts w) (Webhook.url webhook) headers payload].

(** [this.webhooks.map(async ...)]: every POST is issued, in order,
    before any of them is awaited. *)
Fixpoint issue_all (payload : Payload) (hooks : list Webhook.t) : M (list Pending) :=
  match hooks with
  | [] => ret []
  | webhook :: rest =>
      p <- issue payload webhook ;;
      ps <- issue_all payload rest ;;
      ret (p :: ps)
  end.

(** The scheduler picks one of the pending deliveries. *)
Definition pick (n : nat) : M nat := fun w =>
  mkRun (Return (Nat.modulo (sched env (picks w)) n))
        (mkWorld (this w) (storage w) (gets w) (posts w) (S (picks w)) (ticks w))
        [].

(** [await Promise.all(notifications)]: deliveries settle one at a time,
    in the scheduler's order; it resumes when none is pending. No
    delivery rejects, so neither does [Promise.all]. *)
Fixpoint settle_all (fuel : nat) (pending : list Pending) : M unit :=
  match fuel, pending with
  | _, [] => ret tt
  | O, _ :: _ => ret tt
  | S fuel', p0 :: _ =>
      i <- pick (List.length pending) ;;
      settle (nth i pending p0) ;;
      settle_all fuel' (remove_nth i pending)
  end.

Definition Promise_all (pending : list Pending) : M unit :=
  settle_all (List.length pending) pending.

Definition notifyWebhooks (announcement : Announcement.t) : M unit :=
  emit (EvNotify announcement) ;;
  announcementUrl <- getAnnouncementUrl
                       (Announcement.title announcement)
                       (extractAnnouncementCode (Announcement.code announcement)) ;;
  now <- Date_now ;;
  let payload := mkPayload now
                           (Announcement.title announcement)
                           (Announcement.code announcement)
                           announcementUrl
                           (Announcement.publishDate announcement) in
  hooks <- read webhooks ;;
  notifications <- issue_all payload hooks ;;
  Promise_all notifications.

Definition start : M unit :=
  monitoring <- read _isMonitoring ;;
  if monitoring then ret tt
  else
    update (set_this (set_isMonitoring true)) ;;
    storage_put_isMonitoring true ;;
    now <- Date_now ;;
    interval <- read pollingInterval ;;
    storage_setAlarm (now + interval).

Definition stop : M unit :=
  update (set_this (set_isMonitoring false)) ;;
  storage_put_isMonitoring false ;;
  storage_deleteAlarm.

(** [if (this._isMonitoring) await this.state.storage.setAlarm(Date.now()
    + this.pollingInterval)] *)
Definition rearm : M unit :=
  monitoring <- read _isMonitoring ;;
  if monitoring then
    now <- Date_now ;;
    interval <- read pollingInterval ;;
    storage_setAlarm (now + interval)
  else ret tt.

(** The [for (const announcement of announcements)] loop of [alarm]. *)
Fixpoint walk (announcements : list Announcement.t) : M unit :=
  match announcements with
  | [] => ret tt
  | announcement :: rest =>
      last <- read lastAnnouncementId ;;
      if strict_eq (Announcement.id announcement) last then ret tt (* break *)
      else
        (if includes (Announcement.title announcement) LISTING_MARKER
         then notifyWebhooks announcement
         else ret tt) ;;
        walk rest
  end.

Definition alarm : M unit :=
  try_finally
    (try_catch
       (announcements <- fetchAnnouncements ;;
        match announcements with
        | [] => rearm                                  (* then return *)
        | first :: _ =>
            let latestId := Announcement.id first in
            last <- read lastAnnouncementId ;;
            match last with
            | None =>
                update (set_this (set_lastAnnouncementId (Some latestId))) ;;
                storage_put_lastAnnouncementId latestId
            | Some l =>
                if negb (Z.eqb latestId l) then
                  walk announcements ;;
                  update (set_this (set_lastAnnouncementId (Some latestId))) ;;
                  storage_put_lastAnnouncementId latestId
                else ret tt
            end
        end)
       (fun error => console_error (lit "Error in monitoring alarm:") error))
    rearm.

(** The constructor: restore the fields from storage and re-arm the
    alarm if monitoring was on. [interval] is
    [parseInt(env.POLLING_INTERVAL)], [None] standing for [NaN]. The log
    line is printed while the restoring callback awaits the storage. *)
Definition constructor (interval : option Z) : M unit :=
  console_log (lit "BinanceMonitorDO initialized") ;;
  update (fun w =>
    let stored := storage w in
    mkWorld (mkDO (or_default (st_webhooks stored) [])
                  (or_default (st_watchList stored) [])
                  (number_or_null (st_lastAnnouncementId stored))
                  (or_default (st_isMonitoring stored) false)
                  (number_or interval 3000))
            stored (gets w) (posts w) (picks w) (ticks w)) ;;
  rearm.

(** [n] successive wakes. *)
Fixpoint cycles (n : nat) (w : World) : World :=
  match n with
  | O => w
  | S k => cycles k (world (alarm w))
  end.

End Methods.

(** ** Observations on runs *)

(** The entries [notifyWebhooks] was invoked with, in order. *)
Definition notified (evs : list Event) : list Announcement.t :=
  flat_map (fun e => match e with EvNotify a => [a] | _ => [] end) evs.

(** The times [storage.setAlarm] was invoked with, in order. *)
Definition armed (evs : list Event) : list Z :=
  flat_map (fun e => match e with EvSetAlarm t => [t] | _ => [] end) evs.

(** The POSTs issued: request number and target. *)
Definition posted (evs : list Event) : list (nat * jsstring) :=
  flat_map (fun e => match e with EvPost k u _ _ => [(k, u)] | _ => [] end) evs.

(** The deliveries that finished: request number and whether it got an ok
    response. *)
Definition settled (evs : list Event) : list (nat * bool) :=
  flat_map (fun e => match e with EvSettled k b => [(k, b)] | _ => [] end) evs.

(** The values written under the key [lastAnnouncementId]. *)
Definition persisted (evs : list Event) : list Z :=
  flat_map (fun e => match e with EvPutLastAnnouncementId v => [v] | _ => [] end) evs.

Definition response_ok (r : PostResponse) : bool :=
  match r with
  | PostStatus true _ => true
  | _ => false
  end.

Definition has_marker (a : Announcement.t) : bool :=
  includes (Announcement.title a) LISTING_MARKER.

(** [String.prototype.isWellFormed]: no unpaired surrogate. *)
Fixpoint isWellFormed (s : jsstring) : bool :=
  match s with
  | [] => true
  | c :: tl =>
      if is_trail_surrogate c then false
      else if is_lead_surrogate c then
        match tl with
        | d :: tl' => is_trail_surrogate d && isWellFormed tl'
        | [] => false
        end
      else isWellFormed tl
  end.

(** The entries a walk visits before its boundary: those ahead of the
    first entry whose id is [last]. *)
Fixpoint before (last : Z) (l : list Announcement.t) : list Announcement.t :=
  match l with
  | [] => []
  | a :: tl => if Z.eqb (Announcement.id a) last then [] else a :: before last tl
  end.

(** The entries of [l] up to and including the first whose title is not
    well formed. *)
Fixpoint upto_first_malformed (l : list Announcement.t) : list Announcement.t :=
  match l with
  | [] => []
  | a :: tl =>
      if isWellFormed (Announcement.title a) then a :: upto_first_malformed tl else [a]
  end.

(** The list [fetchAnnouncements] resolves to in world [w]. *)
Definition fetched (env : Env) (w : World) : list Announcement.t :=
  match completion (fetchAnnouncements env w) with
  | Return l => l
  | Throw _ => []
  end.

(** The id of the newest entry of the snapshot a response carries. *)
Definition newest (r : FeedResponse) : option Z :=
  match r with
  | FeedStatus true (JsonValue (mkFeedBody (Some (mkFeedData (Some (a :: _)))))) =>
      Some (Announcement.id a)
  | _ => None
  end.

(** The in-memory marker and the persisted one agree, up to the coercion
    of a persisted 0 at construction. *)
Definition synced (w : World) : Prop :=
  lastAnnouncementId (this w) = None \/
  st_lastAnnouncementId (storage w) = lastAnnouncementId (this w).

(** The deliveries [issue_all] leaves pending when the first request is
    number [k], and the POSTs it issues. *)
Fixpoint pendings (env : Env) (k : nat) (hooks : list Webhook.t) : list Pending :=
  match hooks with
  | [] => []
  | h :: rest => mkPending k (Webhook.url h) (hook env k) :: pendings env (S k) rest
  end.

Fixpoint issue_effects (payload : Payload) (k : nat) (hooks : list Webhook.t) : list Event :=
  match hooks with
  | [] => []
  | h :: rest =>
      EvPost k (Webhook.url h) (headersFor h) payload :: issue_effects payload (S k) rest
  end.

(** One entry per subscriber, numbered from [k]. *)
Fixpoint numbered {A} (f : nat -> Webhook.t -> A) (k : nat) (hooks : list Webhook.t) : list A :=
  match hooks with
  | [] => []
  | h :: rest => f k h :: numbered f (S k) rest
  end.

Definition add_posts (n : nat) (w : World) : World :=
  mkWorld (this w) (storage w) (gets w) (n + posts w) (picks w) (ticks w).

(** The world after one more GET. *)
Definition next_get (w : World) : World :=
  mkWorld (this w) (storage w) (S (gets w)) (posts w) (picks w) (ticks w).

(** The world after [lastAnnouncementId] is set to [v] and persisted. *)
Definition advance (v : Z) (w : World) : World :=
  mkWorld (set_lastAnnouncementId (Some v) (this w))
          (mkStorage (st_webhooks (storage w)) (Some v) (st_isMonitoring (storage w))
                     (st_watchList (storage w)) (st_alarm (storage w)))
          (gets w) (posts w) (picks w) (ticks w).

(** The world after the alarm is set to the next clock reading plus the
    polling interval. *)
Definition rearmed (env : Env) (w : World) : World :=
  mkWorld (this w)
          (mkStorage (st_webhooks (storage w)) (st_lastAnnouncementId (storage w))
                     (st_isMonitoring (storage w)) (st_watchList (storage w))
                     (Some (clock env (ticks w) + pollingInterval (this w))%Z))
          (gets w) (posts w) (picks w) (S (ticks w)).

(** Effects that touch neither a subscriber, nor the alarm, nor the
    persisted marker. *)
Definition quiet (evs : list Event) : Prop :=
  notified evs = [] /\ armed evs = [] /\ posted evs = [] /\ persisted evs = []
  /\ settled evs = [].

(** The marker-carrying entries ahead of the boundary in the snapshot of
    the cycle that starts in [w]: the entries its walk hands to the
    notifier, unless an invocation throws. *)
Definition walked (env : Env) (w : World) : list Announcement.t :=
  match lastAnnouncementId (this w) with
  | Some l => filter has_marker (before l (fetched env w))
  | None => []
  end.

Definition all_wellFormed (l : list Announcement.t) : bool :=
  forallb (fun a => isWellFormed (Announcement.title a)) l.

(** The alarms set by the [try] block of the cycle that starts in [w]. *)
Definition early (env : Env) (w : World) : list Z :=
  match fetched env w with
  | [] => if _isMonitoring (this w)
          then [(clock env (ticks w) + pollingInterval (this w))%Z]
          else []
  | _ :: _ => []
  end.

(** The feed never serves a newest id below [v0] or below an earlier
    newest id, from request [k0] on. *)
Definition feed_monotone (env : Env) (k0 : nat) (v0 : Z) : Prop :=
  (forall i x, k0 <= i -> newest (feed env i) = Some x -> (v0 <= x)%Z) /\
  (forall i j x y, k0 <= i -> i <= j ->
                   newest (feed env i) = Some x -> newest (feed env j) = Some y ->
                   (x <= y)%Z).

(** ** Concrete inputs *)

Module Sample.

Definition entry (i : Z) (t : jsstring) : Announcement.t :=
  Announcement.mk i t (lit "announcement/abc123") (lit "2024-01-01").

Definition e5 := entry 5 (lit "Binance Will List ABC").
Definition e4 := entry 4 (lit "Market Update").
Definition e3 := entry 3 (lit "Binance Will List XYZ").

(** A listing whose title starts with an unpaired surrogate. *)
Definition e5_malformed := entry 5 (0xD800%N :: lit "Binance Will List ABC").
Definition e4_listing := entry 4 (lit "Binance Will List DEF").

(** An older listing whose title starts with an unpaired surrogate. *)
Definition e2_malformed := entry 2 (0xD800%N :: lit "Binance Will List OLD").

Definition hookA := Webhook.mk (lit "s3cret") (lit "https://a.example/hook").
Definition hookB := Webhook.mk [] (lit "https://b.example/hook").

Definition serve (l : list Announcement.t) : FeedResponse :=
  FeedStatus true (JsonValue (mkFeedBody (Some (mkFeedData (Some l))))).

(** Every GET is answered with [l]; every other POST fails. *)
Definition env_of (l : list Announcement.t) : Env :=
  mkEnv (fun _ => serve l)
        (fun n => if Nat.even n then PostRejected else PostStatus true (lit "OK"))
        (fun n => n)
        (fun n => 1700000000000 + 10 * Z.of_nat n)%Z.

(** A feed that cannot be reached. *)
Definition env_down : Env :=
  mkEnv (fun _ => FeedRejected) (fun _ => PostRejected) (fun n => n)
        (fun n => 1700000000000 + 10 * Z.of_nat n)%Z.

(** A monitoring actor with two subscribers and the given marker. *)
Definition monitor (last : option Z) : World :=
  mkWorld (mkDO [hookA; hookB] [] last true 3000)
          (mkStorage (Some [hookA; hookB]) last (Some true) None None)
          0 0 0 0.

Definition stopped (last : option Z) : World :=
  mkWorld (mkDO [hookA; hookB] [] last false 3000)
          (mkStorage (Some [hookA; hookB]) last (Some false) None None)
          0 0 0 0.

(** A page of 21 entries. *)
Definition page21 : list Announcement.t :=
  List.map (fun i => entry (Z.of_nat i) (lit "Market Update")) (List.seq 1 21).

End Sample.

(** ** The admin surface: [fetch] *)

(** [decodeURIComponent], and what it needs. *)
Module URI.

Local Open Scope N_scope.

Definition hexValue (c : code_unit) : option N :=
  if in_range 48 57 c then Some (c - 48)
  else if in_range 65 70 c then Some (c - 55)
  else if in_range 97 102 c then Some (c - 87)
  else None.

(** The octet written [%h1h2]; [None] when [p] is not a percent sign or a
    digit is not hexadecimal. *)
Definition octet (p h1 h2 : code_unit) : option N :=
  if N.eqb p 37 then
    match hexValue h1, hexValue h2 with
    | Some a, Some b => Some (16 * a + b)
    | _, _ => None
    end
  else None.

Definition continuation (b : N) : bool := in_range 0x80 0xBF b.

(** The code point of a two-, three- or four-octet UTF-8 sequence;
    [None] when the sequence is not valid UTF-8 (a bad continuation octet,
    an overlong form, a surrogate, a value above U+10FFFF). *)
Definition fromUtf8_2 (b1 b2 : N) : option N :=
  let v := (b1 - 0xC0) * 0x40 + (b2 - 0x80) in
  if continuation b2 && N.leb 0x80 v then Some v else None.

Definition fromUtf8_3 (b1 b2 b3 : N) : option N :=
  let v := (b1 - 0xE0) * 0x1000 + (b2 - 0x80) * 0x40 + (b3 - 0x80) in
  if continuation b2 && continuation b3 && N.leb 0x800 v
     && negb (in_range 0xD800 0xDFFF v)
  then Some v else None.

Definition fromUtf8_4 (b1 b2 b3 b4 : N) : option N :=
  let v := (b1 - 0xF0) * 0x40000 + (b2 - 0x80) * 0x1000
           + (b3 - 0x80) * 0x40 + (b4 - 0x80) in
  if continuation b2 && continuation b3 && continuation b4
     && N.leb 0x10000 v && N.leb v 0x10FFFF
  then Some v else None.

(** The UTF-16 form of a code point. *)
Definition utf16 (v : N) : jsstring :=
  if N.ltb v 0x10000 then [v]
  else [0xD800 + (v - 0x10000) / 0x400; 0xDC00 + (v - 0x10000) mod 0x400].

(** [decodeURIComponent]: [None] is a thrown [URIError]. A percent sign
    must be followed by two hexadecimal digits; an octet of 0x80 or more
    must start a valid UTF-8 sequence, all of it percent-encoded. *)
Fixpoint decodeURIComponent (s : jsstring) : option jsstring :=
  match s with
  | [] => Some []
  | c :: tl =>
      if negb (N.eqb c 37) then option_map (cons c) (decodeURIComponent tl)
      else
        match tl with
        | h1 :: h2 :: t1 =>
            match octet c h1 h2 with
            | None => None
            | Some b1 =>
                if N.ltb b1 0x80 then option_map (cons b1) (decodeURIComponent t1)
                else if N.ltb b1 0xC0 then None
                else if N.ltb b1 0xE0 then
                  match t1 with
                  | p2 :: h3 :: h4 :: t2 =>
                      match octet p2 h3 h4 with
                      | Some b2 =>
                          match fromUtf8_2 b1 b2 with
                          | Some v => option_map (app (utf16 v)) (decodeURIComponent t2)
                          | None => None
                          end
                      | None => None
                      end
                  | _ => None
                  end
                else if N.ltb b1 0xF0 then
                  match t1 with
                  | p2 :: h3 :: h4 :: p3 :: h5 :: h6 :: t3 =>
                      match octet p2 h3 h4, octet p3 h5 h6 with
                      | Some b2, Some b3 =>
                          match fromUtf8_3 b1 b2 b3 with
                          | Some v => option_map (app (utf16 v)) (decodeURIComponent t3)
                          | None => None
                          end
                      | _, _ => None
                      end
                  | _ => None
                  end
                else if N.ltb b1 0xF8 then
                  match t1 with
                  | p2 :: h3 :: h4 :: p3 :: h5 :: h6 :: p4 :: h7 :: h8 :: t4 =>
                      match octet p2 h3 h4, octet p3 h5 h6, octet p4 h7 h8 with
                      | Some b2, Some b3, Some b4 =>
                          match fromUtf8_4 b1 b2 b3 b4 with
                          | Some v => option_map (app (utf16 v)) (decodeURIComponent t4)
                          | None => None
                          end
                      | _, _, _ => None
                      end
                  | _ => None
                  end
                else None
            end
        | _ => None
        end
  end.

(** [a === b] on strings. *)
Fixpoint eqb (a b : jsstring) : bool :=
  match a, b with
  | [], [] => true
  | x :: a', y :: b' => N.eqb x y && eqb a' b'
  | _, _ => false
  end.

End URI.

(** The fields the routes read from [await request.json()], at the types
    of the fields they are stored in: [url] and [secret] are strings (an
    absent secret is [undefined], as falsy as the empty string that stands
    for it here) and [coins] is an array of strings or not an array at
    all. A body that parses to [null] or to a primitive is left out. *)
Record RequestBody := mkBody {
  b_url : jsstring;
  b_secret : jsstring;
  b_coins : option (list jsstring)     (* None: Array.isArray(coins) is false *)
}.

Inductive RequestJson :=
| BodyRejected                         (* request.json() rejects *)
| BodyObject (body : RequestBody).

(** A request: its method, the [pathname] of [new URL(request.url)], and
    what reading its body as JSON gives. *)
Module Request.
Record t := mk { method : jsstring; pathname : jsstring; json : RequestJson }.
End Request.

Inductive ResponseBody :=
| Text (text : jsstring)
| Message (message : jsstring)                              (* { message } *)
| MessageWatchList (message : jsstring) (l : list jsstring) (* { message, watchList } *)
| WebhooksBody (l : list Webhook.t)                         (* { webhooks } *)
| WatchListBody (l : list jsstring).                        (* { watchList } *)

(** A response: its status, whether it carries
    [Content-Type: application/json], and its body. *)
Module Response.
Record t := mk { status : Z; isJson : bool; body : ResponseBody }.
End Response.

Definition set_webhooks (l : list Webhook.t) (d : DO) : DO :=
  mkDO l (watchList d) (lastAnnouncementId d) (_isMonitoring d) (pollingInterval d).

Definition set_watchList (l : list jsstring) (d : DO) : DO :=
  mkDO (webhooks d) l (lastAnnouncementId d) (_isMonitoring d) (pollingInterval d).

(** [storage.put("webhooks", v)] and [storage.put("watchList", v)]; the
    write is observed on the storage. *)
Definition storage_put_webhooks (v : list Webhook.t) : M unit :=
  update (set_storage (fun s =>
    mkStorage (Some v) (st_lastAnnouncementId s) (st_isMonitoring s) (st_watchList s)
              (st_alarm s))).

Definition storage_put_watchList (v : list jsstring) : M unit :=
  update (set_storage (fun s =>
    mkStorage (st_webhooks s) (st_lastAnnouncementId s) (st_isMonitoring s) (Some v)
              (st_alarm s))).

(** [await request.json()] *)
Definition request_json (request : Request.t) : M RequestBody :=
  match Request.json request with
  | BodyRejected => throw SyntaxError
  | BodyObject body => ret body
  end.

Definition json_response (b : ResponseBody) : Response.t := Response.mk 200 true b.

Definition not_found : Response.t := Response.mk 404 false (Text (lit "Not found")).

Section Admin.

Variable env : Env.

Definition fetch (request : Request.t) : M Response.t :=
  let method := Request.method request in
  let pathname := Request.pathname request in
  if URI.eqb method (lit "POST") then
    if URI.eqb pathname (lit "/webhook") then
      body <- request_json request ;;
      update (set_this (fun d =>
        set_webhooks (webhooks d ++ [Webhook.mk (b_secret body) (b_url body)]) d)) ;;
      hooks <- read webhooks ;;
      storage_put_webhooks hooks ;;
      ret (json_response (Message (lit "Webhook registered")))
    else if URI.eqb pathname (lit "/watch") then
      body <- request_json request ;;
      match b_coins body with
      | None =>
          ret (Response.mk 400 false (Text (lit "Invalid request: coins must be an array")))
      | Some coins =>
          update (set_this (set_watchList coins)) ;;
          list <- read watchList ;;
          storage_put_watchList list ;;
          list <- read watchList ;;
          ret (json_response (MessageWatchList (lit "Watch list updated") list))
      end
    else if URI.eqb pathname (lit "/start") then
      start env ;;
      ret (json_response (Message (lit "Monitoring started")))
    else if URI.eqb pathname (lit "/stop") then
      stop ;;
      ret (json_response (Message (lit "Monitoring stopped")))
    else ret not_found
  else if URI.eqb method (lit "GET") then
    if URI.eqb pathname (lit "/webhooks") then
      hooks <- read webhooks ;;
      ret (json_response (WebhooksBody hooks))
    else if URI.eqb pathname (lit "/watch") then
      list <- read watchList ;;
      ret (json_response (WatchListBody list))
    else ret not_found
  else if URI.eqb method (lit "DELETE") then
    if startsWith pathname (lit "/webhook/") then
      match URI.decodeURIComponent (skipn 9 pathname) with
      | None => throw URIError
      | Some urlToDelete =>
          update (set_this (fun d =>
            set_webhooks
              (filter (fun w => negb (URI.eqb (Webhook.url w) urlToDelete)) (webhooks d)) d)) ;;
          hooks <- read webhooks ;;
          storage_put_webhooks hooks ;;
          ret (json_response (Message (lit "Webhook deleted")))
      end
    else if URI.eqb pathname (lit "/watch") then
      update (set_this (set_watchList [])) ;;
      list <- read watchList ;;
      storage_put_watchList list ;;
      list <- read watchList ;;
      ret (json_response (MessageWatchList (lit "Watch list cleared") list))
    else ret not_found
  else ret not_found.

(** What can happen to the actor: a wake, a request, a restart of the
    process (with what [parseInt(env.POLLING_INTERVAL)] then gives). *)
Inductive Op :=
| Wake
| Http (request : Request.t)
| Restart (interval : option Z).

Definition step (op : Op) (w : World) : World :=
  match op with
  | Wake => world (alarm env w)
  | Http request => world (fetch request w)
  | Restart interval => world (constructor env interval w)
  end.

Fixpoint run (ops : list Op) (w : World) : World :=
  match ops with
  | [] => w
  | op :: rest => run rest (step op w)
  end.

End Admin.

(** The routes [fetch] knows. *)
Definition routed (method pathname : jsstring) : bool :=
  (URI.eqb method (lit "POST")
   && (URI.eqb pathname (lit "/webhook") || URI.eqb pathname (lit "/watch")
       || URI.eqb pathname (lit "/start") || URI.eqb pathname (lit "/stop")))
  || (URI.eqb method (lit "GET")
      && (URI.eqb pathname (lit "/webhooks") || URI.eqb pathname (lit "/watch")))
  || (URI.eqb method (lit "DELETE")
      && (startsWith pathname (lit "/webhook/") || URI.eqb pathname (lit "/watch"))).

(** Every code unit is a 16-bit value. *)
Definition isString (s : jsstring) : bool := forallb (fun c => N.ltb c 0x10000) s.

(** The characters an encoded URI component is made of. *)
Definition uriSafe (c : code_unit) : bool :=
  uriUnreserved c || N.eqb c 37.

(** The storage holds what the fields hold: a restart would restore the
    subscribers, the watch list and the monitoring flag as they are. *)
Definition mirrored (w : World) : Prop :=
  or_default (st_webhooks (storage w)) [] = webhooks (this w)
  /\ or_default (st_watchList (storage w)) [] = watchList (this w)
  /\ or_default (st_isMonitoring (storage w)) false = _isMonitoring (this w).

(** The storage holds the marker the field holds, if it holds one, and
    nothing that a restart would read as a marker otherwise. *)
Definition marker_kept (w : World) : Prop :=
  match lastAnnouncementId (this w) with
  | Some v => st_lastAnnouncementId (storage w) = Some v
  | None => number_or_null (st_lastAnnouncementId (storage w)) = None
  end.

(** The world with another watch list, in memory and in storage. *)
Definition rewatch (l : list jsstring) (stored : option (list jsstring)) (w : World) : World :=
  mkWorld (set_watchList l (this w))
          (mkStorage (st_webhooks (storage w)) (st_lastAnnouncementId (storage w))
                     (st_isMonitoring (storage w)) stored (st_alarm (storage w)))
          (gets w) (posts w) (picks w) (ticks w).

(** A computation that neither reads nor writes the watch list. *)
Definition ignores_watchList {A} (m : M A) : Prop :=
  forall l stored w,
    m (rewatch l stored w) =
    mkRun (completion (m w)) (rewatch l stored (world (m w))) (effects (m w)).

(** The subscribers with the given url. *)
Definition subscribed (u : jsstring) (w : World) : list Webhook.t :=
  filter (fun h => URI.eqb (Webhook.url h) u) (webhooks (this w)).

(** The POSTs issued, in full: request number, target, headers, body. *)
Definition requests (evs : list Event) : list (nat * jsstring * Headers * Payload) :=
  flat_map (fun e => match e with EvPost k u h p => [(k, u, h, p)] | _ => [] end) evs.

(** The body [notifyWebhooks] posts for an entry whose encoded title is
    [enc], when the clock reads [now]. *)
Definition payloadFor (now : Z) (a : Announcement.t) (enc : jsstring) : Payload :=
  mkPayload now (Announcement.title a) (Announcement.code a)
            (lit "https://www.binance.com/zh-CN/support/announcement/"
               ++ enc ++ lit "-" ++ extractAnnouncementCode (Announcement.code a))
            (Announcement.publishDate a).

(** Requests and inputs for concrete runs of the admin surface. *)
Module AdminSample.

Definition post (path : string) (body : RequestBody) : Request.t :=
  Request.mk (lit "POST") (lit path) (BodyObject body).

Definition register (u s : jsstring) : Request.t :=
  post "/webhook" (mkBody u s None).

Definition delete (path : jsstring) : Request.t :=
  Request.mk (lit "DELETE") path BodyRejected.

Definition get (path : string) : Request.t :=
  Request.mk (lit "GET") (lit path) BodyRejected.

(** A subscriber url with a space and a non-ASCII letter. *)
Definition hookC_url : jsstring := lit "https://c.example/my hook/" ++ [0xE9%N].

Definition hookC_encoded : jsstring :=
  lit "https%3A%2F%2Fc.example%2Fmy%20hook%2F%C3%A9".

Definition hookA_encoded : jsstring := lit "https%3A%2F%2Fa.example%2Fhook".

End AdminSample.

(** * Properties *)

Unset Implicit Arguments.

(** ** JavaScript strings *)

Lemma uriUnreserved_not_surrogate c :
  uriUnreserved c = true -> is_trail_surrogate c = false /\ is_lead_surrogate c = false.
Proof.
  unfold uriUnreserved, is_trail_surrogate, is_lead_surrogate, in_range.
  cbn [existsb]. intros H.
  assert (Hc : (c <= 126)%N).
  { repeat (apply orb_true_iff in H; destruct H as [H | H]);
      try (apply andb_true_iff in H; destruct H as [_ H]; apply N.leb_le in H; lia);
      try (apply N.eqb_eq in H; lia); discriminate. }
  split; apply andb_false_iff; left; apply N.leb_gt; lia.
Qed.

Lemma option_map_not_None {A B} (f : A -> B) (o : option A) :
  option_map f o <> None <-> o <> None.
Proof. destruct o; cbn; split; congruence. Qed.

Lemma encodeURIComponent_isWellFormed_len n :
  forall s, List.length s <= n ->
            (encodeURIComponent s <> None <-> isWellFormed s = true).
Proof.
  induction n as [| n IH]; intros s Hlen.
  - destruct s; [cbn; split; congruence | cbn in Hlen; lia].
  - destruct s as [| c tl]; [cbn; split; congruence |].
    cbn in Hlen. cbn [encodeURIComponent isWellFormed].
    destruct (uriUnreserved c) eqn:Hu.
    + destruct (uriUnreserved_not_surrogate c Hu) as [-> ->].
      rewrite option_map_not_None. apply IH. lia.
    + destruct (is_trail_surrogate c); [split; congruence |].
      destruct (is_lead_surrogate c).
      * destruct tl as [| d tl']; [split; congruence |].
        destruct (is_trail_surrogate d); cbn [andb]; [| split; congruence].
        rewrite option_map_not_None. apply IH. cbn in Hlen. lia.
      * rewrite option_map_not_None. apply IH. lia.
Qed.

(** [encodeURIComponent] throws exactly on strings that are not well
    formed. *)
Lemma encodeURIComponent_throws s :
  encodeURIComponent s = None <-> isWellFormed s = false.
Proof.
  pose proof (@encodeURIComponent_isWellFormed_len (List.length s) s (Nat.le_refl _)) as H.
  destruct (isWellFormed s), (encodeURIComponent s); split; intros; try congruence.
  - exfalso. apply (proj2 H); congruence.
  - exfalso. assert (false = true) by (apply H; congruence). discriminate.
Qed.

(** ** Observations distribute over concatenation *)

Lemma notified_app a b : notified (a ++ b) = notified a ++ notified b.
Proof. apply flat_map_app. Qed.

Lemma armed_app a b : armed (a ++ b) = armed a ++ armed b.
Proof. apply flat_map_app. Qed.

Lemma posted_app a b : posted (a ++ b) = posted a ++ posted b.
Proof. apply flat_map_app. Qed.

Lemma settled_app a b : settled (a ++ b) = settled a ++ settled b.
Proof. apply flat_map_app. Qed.

Lemma persisted_app a b : persisted (a ++ b) = persisted a ++ persisted b.
Proof. apply flat_map_app. Qed.

Create Rewrite HintDb obs.
#[local] Hint Rewrite notified_app armed_app posted_app settled_app persisted_app : obs.

(** ** The monad *)

Lemma bind_Return {A B} (m : M A) (f : A -> M B) w a w1 e1 :
  m w = mkRun (Return a) w1 e1 ->
  bind m f w = mkRun (completion (f a w1)) (world (f a w1)) (e1 ++ effects (f a w1)).
Proof. intros H. unfold bind. rewrite H. reflexivity. Qed.

Lemma bind_Throw {A B} (m : M A) (f : A -> M B) w e w1 e1 :
  m w = mkRun (Throw e) w1 e1 ->
  bind m f w = mkRun (Throw e) w1 e1.
Proof. intros H. unfold bind. rewrite H. reflexivity. Qed.

Arguments bind_Return {A B} m f {w a w1 e1} _.
Arguments bind_Throw {A B} m f {w e w1 e1} _.

(** ** Lists *)

Lemma remove_nth_length {A} (l : list A) : forall i,
  i < List.length l -> S (List.length (remove_nth i l)) = List.length l.
Proof.
  induction l as [| x tl IH]; intros i Hi; cbn in *; [lia |].
  destruct i; [reflexivity |].
  cbn. f_equal. apply IH. lia.
Qed.

Lemma remove_nth_perm {A} (d : A) (l : list A) : forall i,
  i < List.length l -> Permutation (nth i l d :: remove_nth i l) l.
Proof.
  induction l as [| x tl IH]; intros i Hi; cbn in *; [lia |].
  destruct i; [reflexivity |].
  etransitivity; [apply perm_swap |].
  apply perm_skip. apply IH. lia.
Qed.

(** ** The notifier *)

Section Delivery.

Variable env : Env.

(** One delivery settles without throwing, whatever its response. *)
Lemma settle_run p w :
  exists evs,
    settle p w = mkRun (Return tt) w evs
    /\ settled evs = [(pd_req p, response_ok (pd_response p))]
    /\ notified evs = [] /\ armed evs = [] /\ posted evs = [] /\ persisted evs = [].
Proof.
  unfold settle, try_catch, bind, emit, console_error, throw, ret, response_ok.
  destruct (pd_response p) as [| [|] statusText]; cbn;
    eexists; repeat split.
Qed.

Lemma issue_all_run payload hooks : forall w,
  issue_all env payload hooks w =
  mkRun (Return (pendings env (posts w) hooks))
        (add_posts (List.length hooks) w)
        (issue_effects payload (posts w) hooks).
Proof.
  induction hooks as [| h rest IH]; intros w.
  - destruct w; reflexivity.
  - cbn [issue_all]. unfold bind, issue, ret. cbn. rewrite IH. cbn.
    unfold add_posts. cbn. rewrite Nat.add_succ_r, app_nil_r. reflexivity.
Qed.

Lemma issue_effects_obs payload hooks : forall k,
  posted (issue_effects payload k hooks) = numbered (fun i h => (i, Webhook.url h)) k hooks
  /\ notified (issue_effects payload k hooks) = []
  /\ armed (issue_effects payload k hooks) = []
  /\ settled (issue_effects payload k hooks) = []
  /\ persisted (issue_effects payload k hooks) = [].
Proof.
  unfold posted, notified, armed, settled, persisted.
  induction hooks as [| h rest IH]; intros k; cbn; [repeat split |].
  destruct (IH (S k)) as (-> & ? & ? & ? & ?). repeat split; assumption.
Qed.

Lemma pendings_outcomes hooks : forall k,
  List.map (fun p => (pd_req p, response_ok (pd_response p))) (pendings env k hooks) =
  numbered (fun i _ => (i, response_ok (hook env i))) k hooks.
Proof.
  induction hooks as [| h rest IH]; intros k; cbn; [reflexivity |].
  rewrite IH. reflexivity.
Qed.

(** [Promise.all] resumes normally, and by then every pending delivery
    has settled, each with the outcome of its own response. *)
Lemma settle_all_run fuel : forall pending w,
  List.length pending <= fuel ->
  exists w' evs,
    settle_all env fuel pending w = mkRun (Return tt) w' evs
    /\ this w' = this w /\ storage w' = storage w
    /\ gets w' = gets w /\ posts w' = posts w /\ ticks w' = ticks w
    /\ Permutation (settled evs)
                   (List.map (fun p => (pd_req p, response_ok (pd_response p))) pending)
    /\ notified evs = [] /\ armed evs = [] /\ posted evs = [] /\ persisted evs = [].
Proof.
  induction fuel as [| fuel IH]; intros pending w Hlen.
  - destruct pending; [| cbn in Hlen; lia].
    exists w, []. cbn. repeat split; constructor.
  - destruct pending as [| p0 rest].
    { exists w, []. cbn. repeat split; constructor. }
    set (pending := p0 :: rest) in *.
    set (i := Nat.modulo (sched env (picks w)) (List.length pending)).
    assert (Hi : i < List.length pending)
      by (apply Nat.mod_upper_bound; subst pending; cbn; lia).
    set (w1 := mkWorld (this w) (storage w) (gets w) (posts w) (S (picks w)) (ticks w)).
    destruct (settle_run (nth i pending p0) w1) as (e1 & Hs & Hs1 & Hn1 & Ha1 & Hp1 & Hq1).
    destruct (IH (remove_nth i pending) w1) as
      (w2 & e2 & Hr & Ht & Hst & Hg & Hpo & Hti & Hperm & Hn2 & Ha2 & Hp2 & Hq2).
    { pose proof (remove_nth_length pending i Hi). lia. }
    exists w2, (e1 ++ e2).
    split.
    { subst pending. cbn [settle_all].
      rewrite (@bind_Return _ _ (pick env _) _ w i w1 []) by reflexivity.
      rewrite (bind_Return _ _ Hs), Hr. reflexivity. }
    autorewrite with obs. rewrite Hs1, Hn1, Ha1, Hp1, Hq1, Hn2, Ha2, Hp2, Hq2.
    repeat split; try assumption.
    cbn [app]. apply Permutation_sym.
    etransitivity;
      [apply Permutation_map, Permutation_sym, (remove_nth_perm p0 pending i Hi) |].
    cbn [List.map]. apply perm_skip, Permutation_sym, Hperm.
Qed.

Lemma Promise_all_run pending w :
  exists w' evs,
    Promise_all env pending w = mkRun (Return tt) w' evs
    /\ this w' = this w /\ storage w' = storage w
    /\ gets w' = gets w /\ posts w' = posts w /\ ticks w' = ticks w
    /\ Permutation (settled evs)
                   (List.map (fun p => (pd_req p, response_ok (pd_response p))) pending)
    /\ notified evs = [] /\ armed evs = [] /\ posted evs = [] /\ persisted evs = [].
Proof. apply settle_all_run. apply Nat.le_refl. Qed.

End Delivery.

Section Notifier.

Variable env : Env.

Lemma getAnnouncementUrl_run title code w :
  isWellFormed title = true ->
  exists u, getAnnouncementUrl title code w = mkRun (Return u) w [].
Proof.
  intros Hwf. unfold getAnnouncementUrl.
  destruct (encodeURIComponent title) as [enc |] eqn:He.
  - eexists. reflexivity.
  - apply encodeURIComponent_throws in He. congruence.
Qed.

(** On a well-formed title the notifier returns normally, after one POST
    per subscriber and after every delivery has settled. *)
Lemma notifyWebhooks_run a w :
  isWellFormed (Announcement.title a) = true ->
  exists w' payload evs,
    notifyWebhooks env a w =
    mkRun (Return tt) w'
          (EvNotify a :: issue_effects payload (posts w) (webhooks (this w)) ++ evs)
    /\ this w' = this w /\ storage w' = storage w /\ gets w' = gets w
    /\ ticks w' = S (ticks w)
    /\ posts w' = List.length (webhooks (this w)) + posts w
    /\ Permutation (settled evs)
         (numbered (fun i _ => (i, response_ok (hook env i))) (posts w) (webhooks (this w)))
    /\ notified evs = [] /\ armed evs = [] /\ posted evs = [] /\ persisted evs = [].
Proof.
  intros Hwf.
  destruct (getAnnouncementUrl_run _ (extractAnnouncementCode (Announcement.code a)) w Hwf)
    as (u & Hu).
  set (w1 := mkWorld (this w) (storage w) (gets w) (posts w) (picks w) (S (ticks w))).
  set (payload := mkPayload (clock env (ticks w)) (Announcement.title a)
                            (Announcement.code a) u (Announcement.publishDate a)).
  destruct (Promise_all_run env (pendings env (posts w1) (webhooks (this w1)))
                            (add_posts (List.length (webhooks (this w1))) w1))
    as (w2 & e2 & Hr & Ht & Hst & Hg & Hpo & Hti & Hperm & Hn & Ha & Hp & Hq).
  exists w2, payload, e2.
  split.
  { unfold notifyWebhooks.
    rewrite (@bind_Return _ _ (emit _) _ w tt w [EvNotify a]) by reflexivity.
    rewrite (bind_Return _ _ Hu).
    rewrite (@bind_Return _ _ (Date_now env) _ w (clock env (ticks w)) w1 []) by reflexivity.
    rewrite (@bind_Return _ _ (read _) _ w1 (webhooks (this w1)) w1 []) by reflexivity.
    rewrite (bind_Return _ _ (issue_all_run env payload (webhooks (this w1)) w1)).
    rewrite Hr. reflexivity. }
  rewrite pendings_outcomes in Hperm.
  repeat split; assumption.
Qed.

(** On a title with an unpaired surrogate the notifier throws before any
    POST is issued. *)
Lemma notifyWebhooks_throws a w :
  isWellFormed (Announcement.title a) = false ->
  notifyWebhooks env a w = mkRun (Throw URIError) w [EvNotify a].
Proof.
  intros Hwf. apply encodeURIComponent_throws in Hwf.
  unfold notifyWebhooks.
  rewrite (@bind_Return _ _ (emit _) _ w tt w [EvNotify a]) by reflexivity.
  unfold getAnnouncementUrl. rewrite Hwf.
  rewrite (@bind_Throw _ _ (throw _) _ w URIError w []) by reflexivity.
  reflexivity.
Qed.

End Notifier.

(** ** The detection cycle *)

Section Walk.

Variable env : Env.

(** The feed client always resolves, to [fetched env w], after exactly
    one GET. *)
Lemma fetchAnnouncements_run w :
  exists evs,
    fetchAnnouncements env w = mkRun (Return (fetched env w)) (next_get w) evs
    /\ quiet evs.
Proof.
  unfold fetched, fetchAnnouncements, try_catch, bind, fetch_get, response_json,
    console_error, emit, throw, ret, next_get, quiet.
  destruct (feed env (gets w)) as [| [|] [| | [[[[l |]] |]]]]; cbn;
    eexists; repeat split.
Qed.

Lemma rearm_run w :
  rearm env w =
  if _isMonitoring (this w)
  then mkRun (Return tt) (rearmed env w)
             [EvSetAlarm (clock env (ticks w) + pollingInterval (this w))]
  else mkRun (Return tt) w [].
Proof.
  unfold rearm, bind, read, Date_now, storage_setAlarm, emit, update, ret, rearmed.
  cbn. destruct (_isMonitoring (this w)); reflexivity.
Qed.

Lemma forallb_wellFormed_cons a l :
  forallb (fun x => isWellFormed (Announcement.title x)) (a :: l) =
  isWellFormed (Announcement.title a) &&
  forallb (fun x => isWellFormed (Announcement.title x)) l.
Proof. reflexivity. Qed.

(** The walk: it visits the entries ahead of the boundary, invokes the
    notifier on those that carry the marker, and stops at the first
    invocation that throws. *)
Lemma walk_run l : forall S w,
  lastAnnouncementId (this w) = Some l ->
  exists w' evs,
    walk env S w =
    mkRun (if forallb (fun a => isWellFormed (Announcement.title a))
                      (filter has_marker (before l S))
           then Return tt else Throw URIError)
          w' evs
    /\ this w' = this w /\ storage w' = storage w /\ gets w' = gets w
    /\ notified evs = upto_first_malformed (filter has_marker (before l S))
    /\ armed evs = [] /\ persisted evs = [] /\ ticks w <= ticks w'.
Proof.
  induction S as [| a rest IH]; intros w Hlast.
  - exists w, []. cbn. repeat split; lia.
  - cbn [walk before].
    rewrite (@bind_Return _ _ (read _) _ w (Some l) w []) by (unfold read; rewrite Hlast; reflexivity).
    cbn [strict_eq app].
    destruct (Z.eqb (Announcement.id a) l).
    { exists w, []. cbn. repeat split; lia. }
    cbn [filter].
    change (includes (Announcement.title a) LISTING_MARKER) with (has_marker a).
    destruct (has_marker a) eqn:Hm.
    + destruct (isWellFormed (Announcement.title a)) eqn:Hwf.
      * destruct (notifyWebhooks_run env a w Hwf) as
          (w1 & payload & e1 & Hn & Ht & Hs & Hg & Hti & _ & _ & Hn1 & Ha1 & Hp1 & Hq1).
        destruct (IH w1) as (w2 & e2 & Hr & Ht2 & Hs2 & Hg2 & Hn2 & Ha2 & Hq2 & Hti2);
          [congruence |].
        rewrite (bind_Return _ _ Hn), Hr.
        rewrite forallb_wellFormed_cons, Hwf.
        cbn [andb upto_first_malformed completion world effects].
        rewrite Hwf.
        eexists _, _. split; [reflexivity |].
        destruct (issue_effects_obs payload (webhooks (this w)) (posts w))
          as (_ & Hi1 & Hi2 & _ & Hi3).
        cbn [app]. change (EvNotify a :: ?x) with ([EvNotify a] ++ x).
        autorewrite with obs.
        rewrite Hi1, Hi2, Hi3, Hn1, Ha1, Hq1, Hn2, Ha2, Hq2.
        repeat split; try congruence. lia.
      * rewrite (bind_Throw _ _ (notifyWebhooks_throws env a w Hwf)).
        rewrite forallb_wellFormed_cons, Hwf. cbn [andb upto_first_malformed].
        rewrite Hwf.
        eexists _, _. split; [reflexivity |].
        repeat split. apply Nat.le_refl.
    + rewrite (@bind_Return _ _ (ret tt) _ w tt w []) by reflexivity.
      destruct (IH w Hlast) as (w2 & e2 & Hr & Ht2 & Hs2 & Hg2 & Hn2 & Ha2 & Hq2 & Hti2).
      rewrite Hr. cbn [completion world effects app].
      eexists _, _. split; [reflexivity |].
      repeat split; assumption.
Qed.

End Walk.

Section Alarm.

Variable env : Env.

Lemma try_catch_Return {A} (body : M A) handler w a wb eb :
  body w = mkRun (Return a) wb eb ->
  try_catch body handler w = mkRun (Return a) wb eb.
Proof. intros H. unfold try_catch. rewrite H. reflexivity. Qed.

Lemma try_catch_Throw {A} (body : M A) handler w e wb eb :
  body w = mkRun (Throw e) wb eb ->
  try_catch body handler w =
  mkRun (completion (handler e wb)) (world (handler e wb)) (eb ++ effects (handler e wb)).
Proof. intros H. unfold try_catch. rewrite H. reflexivity. Qed.

Lemma rearm_eta w :
  rearm env w = mkRun (Return tt) (world (rearm env w)) (effects (rearm env w)).
Proof. rewrite rearm_run. destruct (_isMonitoring (this w)); reflexivity. Qed.

Lemma try_finally_rearm {A} (body : M A) w c wb eb :
  body w = mkRun c wb eb ->
  try_finally body (rearm env) w =
  mkRun c (world (rearm env wb)) (eb ++ effects (rearm env wb)).
Proof.
  intros H. unfold try_finally. rewrite H. cbn [completion world effects].
  rewrite (rearm_eta wb) at 1. reflexivity.
Qed.

(** One cycle, branch by branch: [wb] and [eb] are the world and the
    effects of the [try]/[catch] part after the fetch, and the [finally]
    block runs from [wb]. *)
Lemma alarm_run w :
  exists ef wb eb,
    quiet ef
    /\ alarm env w =
       mkRun (Return tt) (world (rearm env wb)) (ef ++ eb ++ effects (rearm env wb))
    /\ match fetched env w with
       | [] => wb = world (rearm env (next_get w)) /\ eb = effects (rearm env (next_get w))
       | a :: _ =>
           match lastAnnouncementId (this w) with
           | None =>
               wb = advance (Announcement.id a) (next_get w)
               /\ eb = [EvPutLastAnnouncementId (Announcement.id a)]
           | Some l =>
               if Z.eqb (Announcement.id a) l then wb = next_get w /\ eb = []
               else
                 exists w1 e1,
                   this w1 = this w /\ storage w1 = storage w /\ gets w1 = S (gets w)
                   /\ notified e1 =
                      upto_first_malformed (filter has_marker (before l (fetched env w)))
                   /\ armed e1 = [] /\ persisted e1 = [] /\ ticks w <= ticks w1
                   /\ if forallb (fun x => isWellFormed (Announcement.title x))
                                 (filter has_marker (before l (fetched env w)))
                      then wb = advance (Announcement.id a) w1
                           /\ eb = e1 ++ [EvPutLastAnnouncementId (Announcement.id a)]
                      else wb = w1
                           /\ eb = e1 ++ [EvConsoleError (lit "Error in monitoring alarm:")
                                                         URIError]
           end
       end.
Proof.
  destruct (fetchAnnouncements_run env w) as (ef & Hf & Hq).
  exists ef.
  assert (Hstep : forall (c : Completion unit) wb eb
                         (K : list Announcement.t -> M unit),
             K (fetched env w) (next_get w) = mkRun c wb eb ->
             bind (fetchAnnouncements env) K w = mkRun c wb (ef ++ eb)).
  { intros c wb eb K HK. rewrite (bind_Return _ _ Hf), HK. reflexivity. }
  unfold alarm.
  destruct (fetched env w) as [| a rest] eqn:HS.
  - exists (world (rearm env (next_get w))), (effects (rearm env (next_get w))).
    split; [exact Hq |]. split; [| split; reflexivity].
    erewrite try_finally_rearm;
      [| apply try_catch_Return, Hstep; apply rearm_eta].
    rewrite <- app_assoc. reflexivity.
  - destruct (lastAnnouncementId (this w)) as [l |] eqn:Hlast.
    + destruct (Z.eqb (Announcement.id a) l) eqn:Heq.
      * exists (next_get w), []. split; [exact Hq |]. split; [| split; reflexivity].
        erewrite try_finally_rearm;
          [| apply try_catch_Return, Hstep;
             rewrite (@bind_Return _ _ (read _) _ (next_get w) (Some l) (next_get w) [])
               by (unfold read; cbn; rewrite Hlast; reflexivity);
             rewrite Heq; reflexivity].
        rewrite <- app_assoc. reflexivity.
      * destruct (walk_run env l (a :: rest) (next_get w) Hlast)
          as (w1 & e1 & Hw & Ht & Hs & Hg & Hn & Ha & Hp & Hti).
        destruct (forallb (fun x => isWellFormed (Announcement.title x))
                          (filter has_marker (before l (a :: rest)))) eqn:Hall.
        -- exists (advance (Announcement.id a) w1),
                  (e1 ++ [EvPutLastAnnouncementId (Announcement.id a)]).
           split; [exact Hq |]. split.
           ++ erewrite try_finally_rearm;
                [| apply try_catch_Return, Hstep;
                   rewrite (@bind_Return _ _ (read _) _ (next_get w) (Some l) (next_get w) [])
                     by (unfold read; cbn; rewrite Hlast; reflexivity);
                   rewrite Heq; cbn [negb];
                   rewrite (bind_Return _ _ Hw); reflexivity].
              cbn [app completion world effects]. rewrite <- !app_assoc. reflexivity.
           ++ exists w1, e1. repeat split; assumption.
        -- exists w1, (e1 ++ [EvConsoleError (lit "Error in monitoring alarm:") URIError]).
           split; [exact Hq |]. split.
           ++ erewrite try_finally_rearm;
                [| erewrite try_catch_Throw;
                   [| apply Hstep;
                      rewrite (@bind_Return _ _ (read _) _ (next_get w) (Some l) (next_get w) [])
                        by (unfold read; cbn; rewrite Hlast; reflexivity);
                      rewrite Heq; cbn [negb];
                      rewrite (bind_Throw _ _ Hw); reflexivity];
                   reflexivity].
              cbn [app completion world effects]. rewrite <- !app_assoc. reflexivity.
           ++ exists w1, e1. repeat split; assumption.
    + exists (advance (Announcement.id a) (next_get w)),
             [EvPutLastAnnouncementId (Announcement.id a)].
      split; [exact Hq |]. split; [| split; reflexivity].
      erewrite try_finally_rearm;
        [| apply try_catch_Return, Hstep;
           rewrite (@bind_Return _ _ (read _) _ (next_get w) None (next_get w) [])
             by (unfold read; cbn; rewrite Hlast; reflexivity);
           reflexivity].
      rewrite <- app_assoc. reflexivity.
Qed.

End Alarm.

(** ** Claims about the feed client and the notifier *)

Section FeedAndNotifier.

Variable env : Env.

(** C8 (amended). Whatever the outcome of the feed request,
    [fetchAnnouncements] resolves and never throws: to the empty list on
    a transport error, a non-OK response, a body that cannot be parsed, a
    null body, or a body without [data] or [data.catalogs]; and otherwise
    to the list found under [data.catalogs], exactly as received. The
    page size 20 is what the request asks for ([pageSize=20] in the query
    string); the list itself is not truncated. *)
Theorem fetchAnnouncements_total w :
  completion (fetchAnnouncements env w) =
  Return (match feed env (gets w) with
          | FeedRejected => []
          | FeedStatus false _ => []
          | FeedStatus true JsonRejected => []
          | FeedStatus true JsonNullish => []
          | FeedStatus true (JsonValue (mkFeedBody None)) => []
          | FeedStatus true (JsonValue (mkFeedBody (Some (mkFeedData None)))) => []
          | FeedStatus true (JsonValue (mkFeedBody (Some (mkFeedData (Some l))))) => l
          end)
  /\ hd_error (effects (fetchAnnouncements env w)) =
     Some (EvGet (BINANCE_API ++ lit "?type=1&catalogId=48&pageNo=1&pageSize=20"))
  /\ List.length (List.filter (fun e => match e with EvGet _ => true | _ => false end)
                              (effects (fetchAnnouncements env w))) = 1.
Proof.
  unfold fetchAnnouncements, try_catch, bind, fetch_get, response_json,
    console_error, emit, throw, ret.
  destruct (feed env (gets w)) as [| [|] [| | [[[[l |]] |]]]]; cbn;
    repeat split.
Qed.

(** C6 (amended). For every entry whose title is a well-formed UTF-16
    string and every subscriber list, [notifyWebhooks] does not throw;
    it issues exactly one POST per subscriber, in order, whatever the
    responses are; and when it returns every delivery has settled, the
    outcome of each being that of its own response only. *)
Theorem notifyWebhooks_isolates_failures a w :
  isWellFormed (Announcement.title a) = true ->
  completion (notifyWebhooks env a w) = Return tt
  /\ posted (effects (notifyWebhooks env a w)) =
     numbered (fun i h => (i, Webhook.url h)) (posts w) (webhooks (this w))
  /\ Permutation (settled (effects (notifyWebhooks env a w)))
       (numbered (fun i _ => (i, response_ok (hook env i))) (posts w) (webhooks (this w)))
  /\ this (world (notifyWebhooks env a w)) = this w
  /\ storage (world (notifyWebhooks env a w)) = storage w.
Proof.
  intros Hwf.
  destruct (notifyWebhooks_run env a w Hwf) as
    (w' & payload & evs & -> & Ht & Hs & _ & _ & _ & Hperm & _ & _ & Hp & _).
  destruct (issue_effects_obs payload (webhooks (this w)) (posts w))
    as (Hi1 & _ & _ & Hi2 & _).
  cbn [completion world effects].
  change (EvNotify a :: ?x) with ([EvNotify a] ++ x).
  autorewrite with obs. rewrite Hi1, Hi2, Hp. cbn [posted settled flat_map app].
  rewrite app_nil_r. repeat split; assumption.
Qed.

End FeedAndNotifier.

(** ** The shape of one cycle *)

Section Shape.

Variable env : Env.

Lemma before_head l a rest :
  Z.eqb (Announcement.id a) l = true -> before l (a :: rest) = [].
Proof. intros H. cbn. rewrite H. reflexivity. Qed.

Lemma before_boundary l pre b post :
  Announcement.id b = l ->
  (forall x, In x pre -> Announcement.id x <> l) ->
  before l (pre ++ b :: post) = pre.
Proof.
  intros Hb. induction pre as [| a pre IH]; intros Hpre; cbn.
  - rewrite Hb, Z.eqb_refl. reflexivity.
  - destruct (Z.eqb_spec (Announcement.id a) l) as [E | _].
    + exfalso. apply (Hpre a); [left; reflexivity | exact E].
    + f_equal. apply IH. intros x Hx. apply Hpre. right. exact Hx.
Qed.

Lemma before_absent l S :
  (forall x, In x S -> Announcement.id x <> l) -> before l S = S.
Proof.
  induction S as [| a S IH]; intros HS; cbn; [reflexivity |].
  destruct (Z.eqb_spec (Announcement.id a) l) as [E | _].
  - exfalso. apply (HS a); [left; reflexivity | exact E].
  - f_equal. apply IH. intros x Hx. apply HS. right. exact Hx.
Qed.

Lemma upto_first_malformed_all l :
  all_wellFormed l = true -> upto_first_malformed l = l.
Proof.
  induction l as [| a l IH]; cbn; [reflexivity |].
  intros H. apply andb_true_iff in H. destruct H as [Ha Hl].
  rewrite Ha, IH by exact Hl. reflexivity.
Qed.

Lemma all_wellFormed_filter S :
  (forall x, In x S -> has_marker x = true ->
             isWellFormed (Announcement.title x) = true) ->
  all_wellFormed (filter has_marker S) = true.
Proof.
  intros H. apply forallb_forall. intros x Hx.
  apply filter_In in Hx. destruct Hx as [Hin Hm]. apply H; assumption.
Qed.

Lemma rearm_world w :
  world (rearm env w) = if _isMonitoring (this w) then rearmed env w else w.
Proof. rewrite rearm_run. destruct (_isMonitoring (this w)); reflexivity. Qed.

Lemma rearm_effects w :
  effects (rearm env w) =
  if _isMonitoring (this w)
  then [EvSetAlarm (clock env (ticks w) + pollingInterval (this w))]
  else [].
Proof. rewrite rearm_run. destruct (_isMonitoring (this w)); reflexivity. Qed.

(** Everything a cycle does before its [finally] block. *)
Lemma alarm_shape w :
  exists wb eb,
    alarm env w =
    mkRun (Return tt) (world (rearm env wb)) (eb ++ effects (rearm env wb))
    /\ (webhooks (this wb) = webhooks (this w)
        /\ watchList (this wb) = watchList (this w)
        /\ _isMonitoring (this wb) = _isMonitoring (this w)
        /\ pollingInterval (this wb) = pollingInterval (this w))
    /\ (st_webhooks (storage wb) = st_webhooks (storage w)
        /\ st_isMonitoring (storage wb) = st_isMonitoring (storage w)
        /\ st_watchList (storage wb) = st_watchList (storage w))
    /\ gets wb = S (gets w)
    /\ armed eb = early env w
    /\ st_alarm (storage wb) = match early env w with
                               | [] => st_alarm (storage w)
                               | t :: _ => Some t
                               end
    /\ (fetched env w = [] ->
        ticks wb = if _isMonitoring (this w) then S (ticks w) else ticks w)
    /\ notified eb = upto_first_malformed (walked env w)
    /\ ticks w <= ticks wb
    /\ (lastAnnouncementId (this w) = None ->
        posted eb = []
        /\ persisted eb = match fetched env w with
                          | [] => []
                          | a :: _ => [Announcement.id a]
                          end)
    /\ lastAnnouncementId (this wb) =
       match fetched env w with
       | [] => lastAnnouncementId (this w)
       | a :: _ => if all_wellFormed (walked env w)
                   then Some (Announcement.id a)
                   else lastAnnouncementId (this w)
       end
    /\ st_lastAnnouncementId (storage wb) =
       match fetched env w, lastAnnouncementId (this w) with
       | [], _ => st_lastAnnouncementId (storage w)
       | a :: _, None => Some (Announcement.id a)
       | a :: _, Some l =>
           if Z.eqb (Announcement.id a) l then st_lastAnnouncementId (storage w)
           else if all_wellFormed (walked env w)
                then Some (Announcement.id a)
                else st_lastAnnouncementId (storage w)
       end.
Proof.
  destruct (alarm_run env w) as (ef & wb & eb & Hq & Hrun & Hcase).
  destruct Hq as (Hqn & Hqa & Hqp & Hqs & Hqt).
  exists wb, (ef ++ eb). split; [rewrite <- app_assoc; exact Hrun |].
  unfold early, walked. autorewrite with obs. rewrite Hqn, Hqa, Hqp, Hqs. cbn [app].
  destruct (fetched env w) as [| a rest] eqn:HS.
  - destruct Hcase as [-> ->]. rewrite rearm_world, rearm_effects. cbn [next_get this].
    destruct (_isMonitoring (this w)) eqn:Hmon; cbn;
      destruct (lastAnnouncementId (this w)); cbn; rewrite ?Hmon; repeat split; lia.
  - destruct (lastAnnouncementId (this w)) as [l |] eqn:Hlast.
    + destruct (Z.eqb (Announcement.id a) l) eqn:Heq.
      * destruct Hcase as [-> ->]. rewrite (before_head l a rest Heq). cbn.
        rewrite Hlast. apply Z.eqb_eq in Heq. subst l.
        repeat split; try discriminate; lia.
      * destruct Hcase as (w1 & e1 & Ht & Hs & Hg & Hn & Ha & Hp & Hti & Hif).
        unfold all_wellFormed.
        destruct (forallb (fun x => isWellFormed (Announcement.title x))
                          (filter has_marker (before l (a :: rest)))) eqn:Hall;
          destruct Hif as [-> ->]; autorewrite with obs; rewrite Hn, Ha; cbn;
            rewrite ?app_nil_r, ?Ht, ?Hs, ?Hlast; repeat split;
              try assumption; try discriminate.
    + destruct Hcase as [-> ->]. cbn. repeat split; try discriminate; lia.
Qed.

End Shape.

(** ** Claims about one cycle *)

Section OneCycle.

Variable env : Env.

Lemma rearm_frame w :
  this (world (rearm env w)) = this w
  /\ st_webhooks (storage (world (rearm env w))) = st_webhooks (storage w)
  /\ st_lastAnnouncementId (storage (world (rearm env w))) =
     st_lastAnnouncementId (storage w)
  /\ st_isMonitoring (storage (world (rearm env w))) = st_isMonitoring (storage w)
  /\ st_watchList (storage (world (rearm env w))) = st_watchList (storage w)
  /\ gets (world (rearm env w)) = gets w
  /\ notified (effects (rearm env w)) = []
  /\ posted (effects (rearm env w)) = []
  /\ persisted (effects (rearm env w)) = [].
Proof.
  rewrite rearm_world, rearm_effects.
  destruct (_isMonitoring (this w)); cbn; repeat split.
Qed.

Lemma In_before l x S : In x (before l S) -> In x S.
Proof.
  induction S as [| a S IH]; cbn; [tauto |].
  destruct (Z.eqb (Announcement.id a) l); cbn; [tauto |].
  intros [H | H]; [left; exact H | right; apply IH, H].
Qed.

Lemma walked_wellFormed w :
  (forall x, In x (fetched env w) -> has_marker x = true ->
             isWellFormed (Announcement.title x) = true) ->
  all_wellFormed (walked env w) = true.
Proof.
  intros H. unfold walked.
  destruct (lastAnnouncementId (this w)) as [l |]; [| reflexivity].
  apply all_wellFormed_filter. intros x Hx. apply H. eapply In_before, Hx.
Qed.

Lemma alarm_notified w :
  notified (effects (alarm env w)) = upto_first_malformed (walked env w).
Proof.
  destruct (alarm_shape env w) as (wb & eb & -> & _ & _ & _ & _ & _ & _ & Hn & _).
  destruct (rearm_frame wb) as (_ & _ & _ & _ & _ & _ & Hr & _).
  cbn [effects]. autorewrite with obs. rewrite Hn, Hr, app_nil_r. reflexivity.
Qed.

Lemma alarm_marker w :
  lastAnnouncementId (this (world (alarm env w))) =
  match fetched env w with
  | [] => lastAnnouncementId (this w)
  | a :: _ => if all_wellFormed (walked env w)
              then Some (Announcement.id a)
              else lastAnnouncementId (this w)
  end.
Proof.
  destruct (alarm_shape env w)
    as (wb & eb & -> & _ & _ & _ & _ & _ & _ & _ & _ & _ & Hl & _).
  destruct (rearm_frame wb) as (Ht & _).
  cbn [world]. rewrite Ht. exact Hl.
Qed.

Lemma alarm_stored w :
  st_lastAnnouncementId (storage (world (alarm env w))) =
  match fetched env w, lastAnnouncementId (this w) with
  | [], _ => st_lastAnnouncementId (storage w)
  | a :: _, None => Some (Announcement.id a)
  | a :: _, Some l =>
      if Z.eqb (Announcement.id a) l then st_lastAnnouncementId (storage w)
      else if all_wellFormed (walked env w)
           then Some (Announcement.id a)
           else st_lastAnnouncementId (storage w)
  end.
Proof.
  destruct (alarm_shape env w)
    as (wb & eb & -> & _ & _ & _ & _ & _ & _ & _ & _ & _ & _ & Hs).
  destruct (rearm_frame wb) as (_ & _ & Ht & _).
  cbn [world]. rewrite Ht. exact Hs.
Qed.

Lemma alarm_gets w : gets (world (alarm env w)) = S (gets w).
Proof.
  destruct (alarm_shape env w) as (wb & eb & -> & _ & _ & Hg & _).
  destruct (rearm_frame wb) as (_ & _ & _ & _ & _ & Hr & _).
  cbn [world]. rewrite Hr. exact Hg.
Qed.

(** C1 (amended). When the stored marker [l] occurs in the snapshot,
    [pre] being the entries ahead of its first occurrence, one cycle
    invokes the notifier, in walk order, on the entries of [pre] whose
    title contains "Binance Will List", up to and including the first of
    them whose title is not well-formed UTF-16 (on which the notifier
    throws); so when those titles are all well formed, it invokes the
    notifier exactly on the entries of [pre] that carry the marker, and
    on no other entry. *)
Theorem alarm_notifies_new_listings w l pre b post :
  lastAnnouncementId (this w) = Some l ->
  fetched env w = pre ++ b :: post ->
  Announcement.id b = l ->
  (forall x, In x pre -> Announcement.id x <> l) ->
  notified (effects (alarm env w)) = upto_first_malformed (filter has_marker pre)
  /\ ((forall x, In x pre -> has_marker x = true ->
                 isWellFormed (Announcement.title x) = true) ->
      notified (effects (alarm env w)) = filter has_marker pre).
Proof.
  intros Hlast HS Hb Hpre.
  assert (Hw : walked env w = filter has_marker pre).
  { unfold walked. rewrite Hlast, HS, (before_boundary l pre b post Hb Hpre).
    reflexivity. }
  rewrite alarm_notified, Hw. split; [reflexivity |].
  intros Hwf. apply upto_first_malformed_all, all_wellFormed_filter, Hwf.
Qed.

(** C2. Whatever branch a cycle takes, and also when the notifier throws
    during the walk, [alarm] returns normally and leaves the monitoring
    flag as it was; if the flag is set, the last thing the cycle does is
    [setAlarm(now + pollingInterval)], [now] being the last clock reading
    taken in the cycle, and that alarm is the one pending afterwards; if the
    flag is not set, the cycle never calls [setAlarm] and the pending
    alarm, if any, is left as it was. *)
Theorem alarm_always_reschedules w :
  completion (alarm env w) = Return tt
  /\ _isMonitoring (this (world (alarm env w))) = _isMonitoring (this w)
  /\ if _isMonitoring (this w)
     then (exists evs,
             effects (alarm env w) =
             evs ++ [EvSetAlarm (clock env (Nat.pred (ticks (world (alarm env w))))
                                 + pollingInterval (this w))])
          /\ st_alarm (storage (world (alarm env w))) =
             Some (clock env (Nat.pred (ticks (world (alarm env w))))
                   + pollingInterval (this w))%Z
          /\ ticks w < ticks (world (alarm env w))
     else armed (effects (alarm env w)) = []
          /\ st_alarm (storage (world (alarm env w))) = st_alarm (storage w).
Proof.
  destruct (alarm_shape env w)
    as (wb & eb & -> & (_ & _ & Hm & Hp) & _ & _ & Ha & Hst & _ & _ & Hti & _).
  cbn [completion world effects].
  rewrite rearm_world, rearm_effects, Hm, Hp.
  unfold early in Ha, Hst.
  destruct (_isMonitoring (this w)); cbn; rewrite ?Hp.
  - split; [reflexivity |]. split; [exact Hm |].
    split; [exists eb; reflexivity |]. split; [reflexivity | lia].
  - autorewrite with obs. rewrite Ha. cbn.
    destruct (fetched env w); repeat split; try assumption; lia.
Qed.

End OneCycle.

Section Marker.

Variable env : Env.

Lemma DO_ext (d d' : DO) :
  webhooks d' = webhooks d -> watchList d' = watchList d ->
  lastAnnouncementId d' = lastAnnouncementId d ->
  _isMonitoring d' = _isMonitoring d -> pollingInterval d' = pollingInterval d ->
  d' = d.
Proof. destruct d, d'; cbn; intros; subst; reflexivity. Qed.

(** On an empty snapshot a cycle changes neither the actor's fields nor
    any persisted key. *)
Lemma alarm_empty_snapshot w :
  fetched env w = [] ->
  this (world (alarm env w)) = this w
  /\ st_webhooks (storage (world (alarm env w))) = st_webhooks (storage w)
  /\ st_lastAnnouncementId (storage (world (alarm env w))) =
     st_lastAnnouncementId (storage w)
  /\ st_isMonitoring (storage (world (alarm env w))) = st_isMonitoring (storage w)
  /\ st_watchList (storage (world (alarm env w))) = st_watchList (storage w).
Proof.
  intros HS.
  destruct (alarm_shape env w)
    as (wb & eb & E & (H1 & H2 & H3 & H4) & (H5 & H6 & H7) & _ & _ & _ & _ & _ & _ & _
        & Hl & Hs).
  rewrite HS in Hl, Hs.
  destruct (rearm_frame env wb) as (R1 & R2 & R3 & R4 & R5 & _).
  rewrite E. cbn [world]. rewrite R1, R2, R3, R4, R5.
  repeat split; try assumption.
  apply DO_ext; assumption.
Qed.

(** C4 (amended). For every non-empty snapshot on whose walk the
    notifier does not throw, after one cycle [lastAnnouncementId] is the
    id of the first entry, whatever the responses of the subscribers were,
    and so is the persisted value when memory and storage agreed before
    the cycle. The notifier does not throw exactly when every entry the
    walk hands to it ([walked]: the entries ahead of the first occurrence
    of the marker, or all entries when it does not occur, whose title
    contains "Binance Will List"; no entry on a first run or when the
    snapshot starts with the marker) has a well-formed title; entries
    behind the boundary do not matter. Otherwise the cycle leaves the
    marker as it was in memory and in storage, and it differs from the id
    of the first entry. For an empty snapshot the actor's fields and the
    persisted keys are unchanged. *)
Theorem alarm_marker_is_newest w :
  match fetched env w with
  | [] =>
      this (world (alarm env w)) = this w
      /\ st_webhooks (storage (world (alarm env w))) = st_webhooks (storage w)
      /\ st_lastAnnouncementId (storage (world (alarm env w))) =
         st_lastAnnouncementId (storage w)
      /\ st_isMonitoring (storage (world (alarm env w))) = st_isMonitoring (storage w)
      /\ st_watchList (storage (world (alarm env w))) = st_watchList (storage w)
  | a :: _ =>
      (all_wellFormed (walked env w) = true ->
       lastAnnouncementId (this (world (alarm env w))) = Some (Announcement.id a)
       /\ (synced w ->
           st_lastAnnouncementId (storage (world (alarm env w))) =
           Some (Announcement.id a)))
      /\ (all_wellFormed (walked env w) = false ->
          lastAnnouncementId (this (world (alarm env w))) = lastAnnouncementId (this w)
          /\ lastAnnouncementId (this w) <> Some (Announcement.id a)
          /\ st_lastAnnouncementId (storage (world (alarm env w))) =
             st_lastAnnouncementId (storage w))
  end.
Proof.
  pose proof (alarm_empty_snapshot w) as Hempty.
  pose proof (alarm_marker env w) as Hl. pose proof (alarm_stored env w) as Hs.
  destruct (fetched env w) as [| a rest] eqn:HS; [apply Hempty; reflexivity |].
  split; intros Hall; rewrite Hall in Hl, Hs.
  - split; [exact Hl |].
    intros Hsync. rewrite Hs.
    destruct (lastAnnouncementId (this w)) as [l |] eqn:Hlast; [| reflexivity].
    destruct (Z.eqb_spec (Announcement.id a) l) as [E | _]; [| reflexivity].
    destruct Hsync as [Hnone | Heq]; [rewrite Hlast in Hnone; discriminate |].
    rewrite Heq, Hlast, E. reflexivity.
  - split; [exact Hl |].
    unfold walked in Hall. rewrite HS in Hall.
    destruct (lastAnnouncementId (this w)) as [l |]; [| discriminate Hall].
    destruct (Z.eqb (Announcement.id a) l) eqn:E.
    + rewrite (before_head l a rest E) in Hall. discriminate Hall.
    + split; [| exact Hs].
      apply Z.eqb_neq in E. congruence.
Qed.

(** The first-run branch. *)
Lemma alarm_first_run w a rest :
  lastAnnouncementId (this w) = None ->
  fetched env w = a :: rest ->
  lastAnnouncementId (this (world (alarm env w))) = Some (Announcement.id a)
  /\ st_lastAnnouncementId (storage (world (alarm env w))) = Some (Announcement.id a)
  /\ persisted (effects (alarm env w)) = [Announcement.id a]
  /\ notified (effects (alarm env w)) = []
  /\ posted (effects (alarm env w)) = [].
Proof.
  intros Hlast HS.
  pose proof (alarm_marker env w) as Hl. pose proof (alarm_stored env w) as Hs.
  pose proof (alarm_notified env w) as Hn.
  unfold walked in Hl, Hs, Hn. rewrite HS, Hlast in *. cbn in Hl, Hn.
  split; [exact Hl |]. split; [exact Hs |].
  destruct (alarm_shape env w)
    as (wb & eb & E & _ & _ & _ & _ & _ & _ & _ & _ & Hfirst & _).
  destruct (Hfirst Hlast) as [Hp Hq]. rewrite HS in Hq.
  destruct (rearm_frame env wb) as (_ & _ & _ & _ & _ & _ & _ & Rp & Rq).
  split; [| split; [exact Hn |]]; rewrite E; cbn [effects]; autorewrite with obs.
  - rewrite Hq, Rq. reflexivity.
  - rewrite Hp, Rp. reflexivity.
Qed.

(** C5. For every non-empty snapshot, when [lastAnnouncementId] is null
    the cycle sets it to the id of the first entry, persists that id, and
    neither invokes the notifier nor issues any POST. *)
Theorem alarm_first_run_baseline w a rest :
  lastAnnouncementId (this w) = None ->
  fetched env w = a :: rest ->
  lastAnnouncementId (this (world (alarm env w))) = Some (Announcement.id a)
  /\ st_lastAnnouncementId (storage (world (alarm env w))) = Some (Announcement.id a)
  /\ persisted (effects (alarm env w)) = [Announcement.id a]
  /\ notified (effects (alarm env w)) = []
  /\ posted (effects (alarm env w)) = [].
Proof. exact (alarm_first_run w a rest). Qed.

(** C7 (amended). When the stored marker occurs nowhere in a non-empty
    snapshot, the walk reaches the end of the snapshot: provided the
    titles that contain the listing marker are well formed, the notifier
    is invoked on every entry of the snapshot whose title contains the
    marker, in order, and the marker is then set to the id of the first
    entry, in memory and in storage. *)
Theorem alarm_marker_scrolled_off w l a rest :
  lastAnnouncementId (this w) = Some l ->
  fetched env w = a :: rest ->
  (forall x, In x (a :: rest) -> Announcement.id x <> l) ->
  (forall x, In x (a :: rest) -> has_marker x = true ->
             isWellFormed (Announcement.title x) = true) ->
  notified (effects (alarm env w)) = filter has_marker (a :: rest)
  /\ lastAnnouncementId (this (world (alarm env w))) = Some (Announcement.id a)
  /\ st_lastAnnouncementId (storage (world (alarm env w))) = Some (Announcement.id a).
Proof.
  intros Hlast HS Habsent Hwf.
  assert (Hw : walked env w = filter has_marker (a :: rest)).
  { unfold walked. rewrite Hlast, HS, (before_absent l _ Habsent). reflexivity. }
  assert (Hall : all_wellFormed (walked env w) = true).
  { apply walked_wellFormed. rewrite HS. exact Hwf. }
  rewrite alarm_notified, alarm_marker, alarm_stored, HS, Hlast, Hall.
  rewrite (upto_first_malformed_all _ Hall), Hw.
  destruct (Z.eqb_spec (Announcement.id a) l) as [E | _].
  - exfalso. apply (Habsent a); [left; reflexivity | exact E].
  - repeat split.
Qed.

(** C10. With the monitoring flag set, a cycle whose snapshot is empty
    calls [setAlarm] twice, once in the empty-snapshot branch and once in
    the [finally] block, each time with the clock reading of that moment
    plus the polling interval; every other cycle calls it exactly once,
    in the [finally] block. *)
Theorem alarm_setAlarm_count w :
  _isMonitoring (this w) = true ->
  armed (effects (alarm env w)) =
  match fetched env w with
  | [] => [clock env (ticks w) + pollingInterval (this w);
           clock env (S (ticks w)) + pollingInterval (this w)]
  | _ :: _ => [clock env (Nat.pred (ticks (world (alarm env w))))
               + pollingInterval (this w)]
  end%Z.
Proof.
  intros Hmon.
  destruct (alarm_shape env w)
    as (wb & eb & -> & (_ & _ & Hm & Hp) & _ & _ & Ha & _ & Hti & _).
  cbn [world effects]. autorewrite with obs.
  rewrite rearm_world, rearm_effects, Hm, Hmon, Hp, Ha. unfold early. rewrite Hmon.
  destruct (fetched env w).
  - rewrite (Hti eq_refl), Hmon. reflexivity.
  - reflexivity.
Qed.

End Marker.

(** ** Sequences of cycles *)

Section Cycles.

Variable env : Env.

Lemma cycles_S n : forall w,
  cycles env (S n) w = world (alarm env (cycles env n w)).
Proof.
  induction n as [| n IH]; intros w; [reflexivity |].
  change (cycles env (S (S n)) w) with (cycles env (S n) (world (alarm env w))).
  rewrite IH. reflexivity.
Qed.

Lemma cycles_gets n w : gets (cycles env n w) = gets w + n.
Proof.
  induction n as [| n IH]; [cbn; lia |].
  rewrite cycles_S, alarm_gets, IH. lia.
Qed.

Lemma fetched_newest w :
  option_map Announcement.id (hd_error (fetched env w)) = newest (feed env (gets w)).
Proof.
  unfold fetched, fetchAnnouncements, try_catch, bind, fetch_get, response_json,
    console_error, emit, throw, ret, newest.
  destruct (feed env (gets w)) as [| [|] [| | [[[[[| a l] |]] |]]]]; reflexivity.
Qed.

(** A cycle leaves the marker alone or moves it to the newest id of its
    snapshot. *)
Lemma alarm_marker_step w :
  lastAnnouncementId (this (world (alarm env w))) = lastAnnouncementId (this w)
  \/ lastAnnouncementId (this (world (alarm env w))) = newest (feed env (gets w)).
Proof.
  rewrite alarm_marker, <- fetched_newest.
  destruct (fetched env w) as [| a rest]; [left; reflexivity |].
  destruct (all_wellFormed (walked env w)); [right | left]; reflexivity.
Qed.

Lemma alarm_marker_stays_set w v :
  lastAnnouncementId (this w) = Some v ->
  exists v', lastAnnouncementId (this (world (alarm env w))) = Some v'.
Proof.
  intros H. rewrite alarm_marker, H.
  destruct (fetched env w) as [| a rest]; [eexists; reflexivity |].
  destruct (all_wellFormed (walked env w)); eexists; reflexivity.
Qed.

Lemma cycles_marker_set w v0 n :
  lastAnnouncementId (this w) = Some v0 ->
  exists v, lastAnnouncementId (this (cycles env n w)) = Some v.
Proof.
  intros H0. induction n as [| n [v IH]]; [exists v0; exact H0 |].
  rewrite cycles_S. eapply alarm_marker_stays_set, IH.
Qed.

Lemma cycles_marker_bound w v0 :
  lastAnnouncementId (this w) = Some v0 ->
  feed_monotone env (gets w) v0 ->
  forall n, exists v,
    lastAnnouncementId (this (cycles env n w)) = Some v
    /\ (forall j y, gets w + n <= j -> newest (feed env j) = Some y -> (v <= y)%Z).
Proof.
  intros H0 [Hlow Hmono] n. induction n as [| n (v & Hv & Hb)].
  - exists v0. split; [exact H0 |]. intros j y Hj. apply Hlow. lia.
  - rewrite cycles_S.
    destruct (alarm_marker_step (cycles env n w)) as [E | E]; rewrite E.
    + exists v. split; [exact Hv |]. intros j y Hj. apply Hb. lia.
    + rewrite cycles_gets in *.
      destruct (alarm_marker_stays_set (cycles env n w) v Hv) as [v' Hv'].
      rewrite E in Hv'. exists v'. split; [exact Hv' |].
      intros j y Hj. apply (Hmono (gets w + n) j); [lia | lia | exact Hv'].
Qed.

(** C3 (amended). Over every sequence of cycles, once
    [lastAnnouncementId] is set it is never null again, and each cycle
    either leaves it as it is or sets it to the newest id of that cycle's
    snapshot. The code never compares ids by order: the marker is
    non-decreasing over the sequence provided the newest id served by the
    feed never falls below the initial marker or below an earlier newest
    id. *)
Theorem marker_never_rolled_back w v0 :
  lastAnnouncementId (this w) = Some v0 ->
  (forall n, exists v, lastAnnouncementId (this (cycles env n w)) = Some v)
  /\ (forall n,
        lastAnnouncementId (this (cycles env (S n) w)) =
        lastAnnouncementId (this (cycles env n w))
        \/ lastAnnouncementId (this (cycles env (S n) w)) =
           newest (feed env (gets w + n)))
  /\ (feed_monotone env (gets w) v0 ->
      forall m n v v',
        m <= n ->
        lastAnnouncementId (this (cycles env m w)) = Some v ->
        lastAnnouncementId (this (cycles env n w)) = Some v' ->
        (v <= v')%Z).
Proof.
  intros H0. split; [intros n; eapply cycles_marker_set, H0 |]. split.
  - intros n. rewrite cycles_S, <- cycles_gets. apply alarm_marker_step.
  - intros Hfeed m n v v' Hmn. revert v'.
    induction Hmn as [| n Hmn IH]; intros v' Hm Hn;
      [assert (v = v') by congruence; lia |].
    destruct (cycles_marker_bound w v0 H0 Hfeed n) as (u & Hu & Hb).
    specialize (IH u Hm Hu).
    rewrite cycles_S in Hn.
    destruct (alarm_marker_step (cycles env n w)) as [E | E]; rewrite E in Hn.
    + assert (u = v') by congruence. lia.
    + rewrite cycles_gets in Hn. specialize (Hb (gets w + n) v' (Nat.le_refl _) Hn). lia.
Qed.

End Cycles.

(** ** Restoring the state at construction *)

Section Restart.

Variable env : Env.

Lemma constructor_marker interval w :
  lastAnnouncementId (this (world (constructor env interval w))) =
  number_or_null (st_lastAnnouncementId (storage w)).
Proof.
  unfold constructor, console_log.
  rewrite (@bind_Return _ _ (emit _) _ w tt w [_]) by reflexivity.
  rewrite (bind_Return (update _) _ eq_refl).
  cbn [world]. destruct (rearm_frame env
    (mkWorld (mkDO (or_default (st_webhooks (storage w)) [])
                   (or_default (st_watchList (storage w)) [])
                   (number_or_null (st_lastAnnouncementId (storage w)))
                   (or_default (st_isMonitoring (storage w)) false)
                   (number_or interval 3000))
             (storage w) (gets w) (posts w) (picks w) (ticks w))) as (-> & _).
  reflexivity.
Qed.

(** C9. When the persisted last-seen id is 0, the constructor restores
    [lastAnnouncementId] as null, so the next cycle with a non-empty
    snapshot behaves as a first run: it sets and persists the id of the
    first entry and neither invokes the notifier nor issues a POST. Every
    non-zero persisted id is restored as it is. *)
Theorem constructor_restores_marker interval w v :
  st_lastAnnouncementId (storage w) = Some v ->
  (v = 0%Z ->
   lastAnnouncementId (this (world (constructor env interval w))) = None
   /\ forall a rest,
        fetched env (world (constructor env interval w)) = a :: rest ->
        lastAnnouncementId
          (this (world (alarm env (world (constructor env interval w))))) =
        Some (Announcement.id a)
        /\ st_lastAnnouncementId
             (storage (world (alarm env (world (constructor env interval w))))) =
           Some (Announcement.id a)
        /\ notified (effects (alarm env (world (constructor env interval w)))) = []
        /\ posted (effects (alarm env (world (constructor env interval w)))) = [])
  /\ (v <> 0%Z ->
      lastAnnouncementId (this (world (constructor env interval w))) = Some v).
Proof.
  intros Hst. pose proof (constructor_marker interval w) as Hc.
  rewrite Hst in Hc. cbn in Hc. split.
  - intros ->. cbn in Hc. split; [exact Hc |].
    intros a rest HS.
    destruct (alarm_first_run env _ a rest Hc HS) as (H1 & H2 & _ & H3 & H4).
    repeat split; assumption.
  - intros Hv. destruct (Z.eqb_spec v 0); [contradiction | exact Hc].
Qed.

(** Memory and storage agree on the marker after construction, and every
    cycle keeps them in agreement. *)
Lemma constructor_synced interval w : synced (world (constructor env interval w)).
Proof.
  unfold synced. rewrite constructor_marker.
  unfold constructor, console_log.
  rewrite (@bind_Return _ _ (emit _) _ w tt w [_]) by reflexivity.
  rewrite (bind_Return (update _) _ eq_refl).
  cbn [world].
  match goal with
  | |- context [rearm env ?w0] =>
      destruct (rearm_frame env w0) as (_ & _ & -> & _)
  end.
  cbn. destruct (st_lastAnnouncementId (storage w)) as [n |]; cbn; [| left; reflexivity].
  destruct (Z.eqb n 0); [left | right]; reflexivity.
Qed.

Lemma alarm_synced w : synced w -> synced (world (alarm env w)).
Proof.
  unfold synced. rewrite alarm_marker, alarm_stored. unfold walked.
  destruct (fetched env w) as [| a rest]; [destruct (lastAnnouncementId (this w)); tauto |].
  destruct (lastAnnouncementId (this w)) as [l |]; [| intros _; right; reflexivity].
  intros [H | H]; [discriminate |].
  destruct (Z.eqb_spec (Announcement.id a) l) as [E | _].
  - rewrite (before_head l a rest) by (apply Z.eqb_eq, E). cbn. right. congruence.
  - destruct (all_wellFormed (filter has_marker (before l (a :: rest))));
      right; [reflexivity | exact H].
Qed.

Lemma cycles_synced n : forall w, synced w -> synced (cycles env n w).
Proof.
  induction n as [| n IH]; intros w H; [exact H |].
  cbn [cycles]. apply IH, alarm_synced, H.
Qed.

End Restart.

(** ** Control-plane operations *)

Section Control.

Variable env : Env.

(** [start] does nothing when monitoring is already on. *)
Lemma start_idempotent w :
  _isMonitoring (this w) = true -> start env w = mkRun (Return tt) w [].
Proof.
  intros H. unfold start.
  rewrite (@bind_Return _ _ (read _) _ w true w []) by (unfold read; rewrite H; reflexivity).
  reflexivity.
Qed.

(** [start] from a stopped actor sets and persists the flag and arms the
    alarm one interval from now. *)
Lemma start_arms w :
  _isMonitoring (this w) = false ->
  completion (start env w) = Return tt
  /\ _isMonitoring (this (world (start env w))) = true
  /\ st_isMonitoring (storage (world (start env w))) = Some true
  /\ st_alarm (storage (world (start env w))) =
     Some (clock env (ticks w) + pollingInterval (this w))%Z.
Proof.
  intros H. unfold start.
  rewrite (@bind_Return _ _ (read _) _ w false w []) by (unfold read; rewrite H; reflexivity).
  cbn. repeat split.
Qed.

(** [stop] clears and persists the flag and cancels the alarm; a cycle
    that runs afterwards arms nothing. *)
Lemma stop_unarms w :
  completion (stop w) = Return tt
  /\ _isMonitoring (this (world (stop w))) = false
  /\ st_isMonitoring (storage (world (stop w))) = Some false
  /\ st_alarm (storage (world (stop w))) = None
  /\ armed (effects (alarm env (world (stop w)))) = []
  /\ st_alarm (storage (world (alarm env (world (stop w))))) = None.
Proof.
  split; [reflexivity |]. split; [reflexivity |].
  split; [reflexivity |]. split; [reflexivity |].
  assert (Hoff : _isMonitoring (this (world (stop w))) = false) by reflexivity.
  assert (Hnone : st_alarm (storage (world (stop w))) = None) by reflexivity.
  revert Hoff Hnone. generalize (world (stop w)). intros w' Hoff Hnone.
  destruct (alarm_shape env w')
    as (wb & eb & -> & (_ & _ & Hm & _) & _ & _ & Ha & Hst & _).
  cbn [world effects]. rewrite rearm_world, rearm_effects, Hm, Hoff.
  unfold early in Ha, Hst. rewrite Hoff in Ha, Hst.
  autorewrite with obs. rewrite Ha, Hst, Hnone.
  destruct (fetched env w'); split; reflexivity.
Qed.

End Control.

(** ** Concrete runs *)

Section Runs.

Import Sample.

Ltac each_member H :=
  cbn in H;
  repeat (destruct H as [<- | H]; [try discriminate; try reflexivity |]);
  try contradiction.

(** The scenario of the specification: snapshot 5, 4, 3 with marker 3. *)
Example scenario_listing :
  notified (effects (alarm (env_of [e5; e4; e3]) (monitor (Some 3%Z)))) = [e5]
  /\ lastAnnouncementId (this (world (alarm (env_of [e5; e4; e3]) (monitor (Some 3%Z)))))
     = Some 5%Z
  /\ settled (effects (alarm (env_of [e5; e4; e3]) (monitor (Some 3%Z))))
     = [(0, false); (1, true)].
Proof. vm_compute. repeat split. Qed.

(** Witness of C1: the scenario of the specification. *)
Lemma alarm_notifies_new_listings_witness :
  (lastAnnouncementId (this (monitor (Some 3%Z))) = Some 3%Z
   /\ fetched (env_of [e5; e4; e3]) (monitor (Some 3%Z)) = [e5; e4] ++ e3 :: []
   /\ Announcement.id e3 = 3%Z
   /\ (forall x, In x [e5; e4] -> Announcement.id x <> 3%Z)
   /\ (forall x, In x [e5; e4] -> has_marker x = true ->
                 isWellFormed (Announcement.title x) = true))
  /\ notified (effects (alarm (env_of [e5; e4; e3]) (monitor (Some 3%Z)))) = [e5].
Proof.
  assert (H4 : forall x, In x [e5; e4] -> Announcement.id x <> 3%Z)
    by (intros x Hx; each_member Hx).
  assert (H5 : forall x, In x [e5; e4] -> has_marker x = true ->
                         isWellFormed (Announcement.title x) = true)
    by (intros x Hx _; each_member Hx).
  split; [repeat split; assumption |].
  exact (proj2 (alarm_notifies_new_listings (env_of [e5; e4; e3]) (monitor (Some 3%Z))
                  3%Z [e5; e4] e3 [] eq_refl eq_refl eq_refl H4) H5).
Defined.

(** Counterexample to C1 as stated: the marker 3 occurs in the snapshot
    and two listings precede it, but the notifier throws on the first,
    whose title has an unpaired surrogate, and is never invoked on the
    second. *)
Lemma alarm_notifies_new_listings_counterexample :
  lastAnnouncementId (this (monitor (Some 3%Z))) = Some 3%Z
  /\ fetched (env_of [e5_malformed; e4_listing; e3]) (monitor (Some 3%Z)) =
     [e5_malformed; e4_listing] ++ e3 :: []
  /\ Announcement.id e3 = 3%Z
  /\ (forall x, In x [e5_malformed; e4_listing] -> Announcement.id x <> 3%Z)
  /\ filter has_marker [e5_malformed; e4_listing] = [e5_malformed; e4_listing]
  /\ notified (effects (alarm (env_of [e5_malformed; e4_listing; e3])
                              (monitor (Some 3%Z)))) = [e5_malformed]
  /\ notified (effects (alarm (env_of [e5_malformed; e4_listing; e3])
                              (monitor (Some 3%Z))))
     <> filter has_marker [e5_malformed; e4_listing].
Proof.
  repeat split; try reflexivity.
  - intros x Hx; each_member Hx.
  - vm_compute. discriminate.
Qed.

(** Witness of C3: a feed that always serves 5, 4, 3, from marker 3. *)
Lemma marker_never_rolled_back_witness :
  lastAnnouncementId (this (monitor (Some 3%Z))) = Some 3%Z
  /\ feed_monotone (env_of [e5; e4; e3]) (gets (monitor (Some 3%Z))) 3%Z
  /\ forall m n v v',
       m <= n ->
       lastAnnouncementId (this (cycles (env_of [e5; e4; e3]) m (monitor (Some 3%Z))))
       = Some v ->
       lastAnnouncementId (this (cycles (env_of [e5; e4; e3]) n (monitor (Some 3%Z))))
       = Some v' ->
       (v <= v')%Z.
Proof.
  assert (Hfeed : feed_monotone (env_of [e5; e4; e3]) (gets (monitor (Some 3%Z))) 3%Z).
  { split.
    - intros i x _ H. cbn in H. injection H as <-. lia.
    - intros i j x y _ _ Hx Hy. cbn in Hx, Hy. injection Hx as <-. injection Hy as <-. lia. }
  split; [reflexivity |]. split; [exact Hfeed |].
  exact (proj2 (proj2 (marker_never_rolled_back (env_of [e5; e4; e3])
                         (monitor (Some 3%Z)) 3%Z eq_refl)) Hfeed).
Defined.

(** Counterexample to C3 as stated: the marker is 5 and the feed now
    starts at 4 (entry 5 was withdrawn); after one cycle the marker is 4. *)
Lemma marker_never_rolled_back_counterexample :
  lastAnnouncementId (this (monitor (Some 5%Z))) = Some 5%Z
  /\ lastAnnouncementId (this (cycles (env_of [e4; e3]) 1 (monitor (Some 5%Z)))) = Some 4%Z
  /\ (4 < 5)%Z.
Proof. repeat split. Qed.

(** Witness of C4: the scenario of the specification, with a malformed
    listing behind the boundary, which the walk never reaches. *)
Lemma alarm_marker_is_newest_witness :
  (all_wellFormed (walked (env_of [e5; e4; e3; e2_malformed]) (monitor (Some 3%Z))) = true
   /\ synced (monitor (Some 3%Z)))
  /\ lastAnnouncementId
       (this (world (alarm (env_of [e5; e4; e3; e2_malformed]) (monitor (Some 3%Z)))))
     = Some 5%Z
  /\ st_lastAnnouncementId
       (storage (world (alarm (env_of [e5; e4; e3; e2_malformed]) (monitor (Some 3%Z)))))
     = Some 5%Z.
Proof.
  assert (Hs : synced (monitor (Some 3%Z))) by (right; reflexivity).
  split; [split; [reflexivity | exact Hs] |].
  destruct (proj1 (alarm_marker_is_newest (env_of [e5; e4; e3; e2_malformed])
                     (monitor (Some 3%Z))) eq_refl) as [Hl Hst].
  split; [exact Hl | exact (Hst Hs)].
Defined.

(** Counterexample to C4 as stated: the snapshot is not empty and its
    first entry has id 5, but the notifier throws on that entry, the
    update is skipped, and the marker is still 3 after the cycle, in
    memory and in storage. *)
Lemma alarm_marker_is_newest_counterexample :
  fetched (env_of [e5_malformed; e4_listing; e3]) (monitor (Some 3%Z)) =
  e5_malformed :: [e4_listing; e3]
  /\ Announcement.id e5_malformed = 5%Z
  /\ lastAnnouncementId
       (this (world (alarm (env_of [e5_malformed; e4_listing; e3]) (monitor (Some 3%Z)))))
     = Some 3%Z
  /\ st_lastAnnouncementId
       (storage (world (alarm (env_of [e5_malformed; e4_listing; e3])
                              (monitor (Some 3%Z)))))
     = Some 3%Z.
Proof. vm_compute. repeat split. Qed.

(** Witness of C5: a first run on the snapshot 5, 4, 3. *)
Lemma alarm_first_run_baseline_witness :
  (lastAnnouncementId (this (monitor None)) = None
   /\ fetched (env_of [e5; e4; e3]) (monitor None) = e5 :: [e4; e3])
  /\ lastAnnouncementId (this (world (alarm (env_of [e5; e4; e3]) (monitor None))))
     = Some 5%Z
  /\ st_lastAnnouncementId (storage (world (alarm (env_of [e5; e4; e3]) (monitor None))))
     = Some 5%Z
  /\ persisted (effects (alarm (env_of [e5; e4; e3]) (monitor None))) = [5%Z]
  /\ notified (effects (alarm (env_of [e5; e4; e3]) (monitor None))) = []
  /\ posted (effects (alarm (env_of [e5; e4; e3]) (monitor None))) = [].
Proof.
  split; [split; reflexivity |].
  exact (alarm_first_run_baseline (env_of [e5; e4; e3]) (monitor None) e5 [e4; e3]
           eq_refl eq_refl).
Defined.

(** Witness of C6: two subscribers, the first of which cannot be
    reached. *)
Lemma notifyWebhooks_isolates_failures_witness :
  isWellFormed (Announcement.title e5) = true
  /\ completion (notifyWebhooks (env_of []) e5 (monitor None)) = Return tt
  /\ posted (effects (notifyWebhooks (env_of []) e5 (monitor None))) =
     [(0, Webhook.url hookA); (1, Webhook.url hookB)]
  /\ Permutation (settled (effects (notifyWebhooks (env_of []) e5 (monitor None))))
                 [(0, false); (1, true)]
  /\ this (world (notifyWebhooks (env_of []) e5 (monitor None))) = this (monitor None)
  /\ storage (world (notifyWebhooks (env_of []) e5 (monitor None))) =
     storage (monitor None).
Proof.
  split; [reflexivity |].
  exact (notifyWebhooks_isolates_failures (env_of []) e5 (monitor None) eq_refl).
Defined.

(** Counterexample to C6 as stated: on an entry whose title has an
    unpaired surrogate the notifier throws, before any POST. *)
Lemma notifyWebhooks_isolates_failures_counterexample :
  completion (notifyWebhooks (env_of []) e5_malformed (monitor None)) = Throw URIError
  /\ posted (effects (notifyWebhooks (env_of []) e5_malformed (monitor None))) = [].
Proof. vm_compute. split; reflexivity. Qed.

(** Witness of C7: the marker 2 has scrolled off the snapshot 5, 4, 3. *)
Lemma alarm_marker_scrolled_off_witness :
  (lastAnnouncementId (this (monitor (Some 2%Z))) = Some 2%Z
   /\ fetched (env_of [e5; e4; e3]) (monitor (Some 2%Z)) = e5 :: [e4; e3]
   /\ (forall x, In x (e5 :: [e4; e3]) -> Announcement.id x <> 2%Z)
   /\ (forall x, In x (e5 :: [e4; e3]) -> has_marker x = true ->
                 isWellFormed (Announcement.title x) = true))
  /\ notified (effects (alarm (env_of [e5; e4; e3]) (monitor (Some 2%Z)))) = [e5; e3]
  /\ lastAnnouncementId (this (world (alarm (env_of [e5; e4; e3]) (monitor (Some 2%Z)))))
     = Some 5%Z
  /\ st_lastAnnouncementId
       (storage (world (alarm (env_of [e5; e4; e3]) (monitor (Some 2%Z))))) = Some 5%Z.
Proof.
  assert (H3 : forall x, In x (e5 :: [e4; e3]) -> Announcement.id x <> 2%Z)
    by (intros x Hx; each_member Hx).
  assert (H4 : forall x, In x (e5 :: [e4; e3]) -> has_marker x = true ->
                         isWellFormed (Announcement.title x) = true)
    by (intros x Hx _; each_member Hx).
  split; [repeat split; assumption |].
  exact (alarm_marker_scrolled_off (env_of [e5; e4; e3]) (monitor (Some 2%Z))
           2%Z e5 [e4; e3] eq_refl eq_refl H3 H4).
Defined.

(** Counterexample to C7 as stated: the marker 2 occurs nowhere in the
    snapshot, whose two entries both carry the listing marker; the
    notifier throws on the first, the second is never notified and the
    marker stays 2. *)
Lemma alarm_marker_scrolled_off_counterexample :
  lastAnnouncementId (this (monitor (Some 2%Z))) = Some 2%Z
  /\ fetched (env_of [e5_malformed; e4_listing]) (monitor (Some 2%Z)) =
     [e5_malformed; e4_listing]
  /\ (forall x, In x [e5_malformed; e4_listing] -> Announcement.id x <> 2%Z)
  /\ filter has_marker [e5_malformed; e4_listing] = [e5_malformed; e4_listing]
  /\ notified (effects (alarm (env_of [e5_malformed; e4_listing]) (monitor (Some 2%Z))))
     = [e5_malformed]
  /\ lastAnnouncementId
       (this (world (alarm (env_of [e5_malformed; e4_listing]) (monitor (Some 2%Z)))))
     = Some 2%Z.
Proof.
  repeat split; try reflexivity.
  intros x Hx; each_member Hx.
Qed.

(** Counterexample to C8 as stated: the feed answers with a page of 21
    entries and [fetchAnnouncements] resolves to all 21. *)
Lemma fetchAnnouncements_total_counterexample :
  feed (env_of page21) 0 = serve page21
  /\ completion (fetchAnnouncements (env_of page21) (monitor None)) = Return page21
  /\ List.length page21 = 21
  /\ ~ (List.length (fetched (env_of page21) (monitor None)) <= 20).
Proof.
  repeat split. vm_compute. lia.
Qed.

(** Witness of C9: a restart on a persisted id 0. *)
Lemma constructor_restores_marker_witness :
  st_lastAnnouncementId (storage (monitor (Some 0%Z))) = Some 0%Z
  /\ lastAnnouncementId
       (this (world (constructor (env_of [e5; e4; e3]) (Some 1000%Z) (monitor (Some 0%Z)))))
     = None.
Proof.
  split; [reflexivity |].
  exact (proj1 (proj1 (constructor_restores_marker (env_of [e5; e4; e3]) (Some 1000%Z)
                         (monitor (Some 0%Z)) 0%Z eq_refl) eq_refl)).
Defined.

(** Witness of C10: the feed cannot be reached, so the snapshot is
    empty. *)
Lemma alarm_setAlarm_count_witness :
  _isMonitoring (this (monitor (Some 3%Z))) = true
  /\ armed (effects (alarm env_down (monitor (Some 3%Z)))) =
     [1700000003000; 1700000003010]%Z.
Proof.
  split; [reflexivity |].
  exact (alarm_setAlarm_count env_down (monitor (Some 3%Z)) eq_refl).
Defined.

(** A cycle on which the notifier throws logs the error, still returns
    and re-arms. *)
Example scenario_throwing_cycle :
  completion (alarm (env_of [e5_malformed; e4_listing; e3]) (monitor (Some 3%Z)))
  = Return tt
  /\ In (EvConsoleError (lit "Error in monitoring alarm:") URIError)
        (effects (alarm (env_of [e5_malformed; e4_listing; e3]) (monitor (Some 3%Z))))
  /\ armed (effects (alarm (env_of [e5_malformed; e4_listing; e3]) (monitor (Some 3%Z))))
     = [1700000003000%Z].
Proof.
  split; [reflexivity |]. split; [| reflexivity].
  vm_compute. right. right. left. reflexivity.
Qed.

(** A stopped actor is not re-armed. *)
Example scenario_stopped :
  armed (effects (alarm (env_of [e5; e4; e3]) (stopped (Some 3%Z)))) = []
  /\ lastAnnouncementId (this (world (alarm (env_of [e5; e4; e3]) (stopped (Some 3%Z)))))
     = Some 5%Z.
Proof. vm_compute. split; reflexivity. Qed.

End Runs.

(** * Further properties *)

(** ** URI encoding and decoding *)

Module URIFacts.

Import URI.

Local Open Scope N_scope.

Ltac Zify.zify_post_hook ::= Z.to_euclidean_division_equations.

Lemma lor_add a b k : a mod 2 ^ k = 0 -> b < 2 ^ k -> N.lor a b = a + b.
Proof.
  intros Ha Hb.
  assert (Hland : N.land a b = 0).
  { apply N.bits_inj. intros n. rewrite N.land_spec, N.bits_0.
    destruct (N.lt_ge_cases n k) as [Hn | Hn].
    - rewrite <- (N.mod_pow2_bits_low a k n), Ha, N.bits_0 by assumption. reflexivity.
    - rewrite <- (N.mod_small b (2 ^ k)) by assumption.
      rewrite N.mod_pow2_bits_high by assumption. apply andb_false_r. }
  rewrite <- N.lxor_lor, <- N.add_nocarry_lxor by assumption. reflexivity.
Qed.

(** The octets of [utf8], by arithmetic. *)
Lemma utf8_arith cp :
  cp < 0x110000 ->
  utf8 cp =
  if N.ltb cp 0x80 then [cp]
  else if N.ltb cp 0x800 then [0xC0 + cp / 0x40; 0x80 + cp mod 0x40]
  else if N.ltb cp 0x10000 then
    [0xE0 + cp / 0x1000; 0x80 + (cp / 0x40) mod 0x40; 0x80 + cp mod 0x40]
  else [0xF0 + cp / 0x40000; 0x80 + (cp / 0x1000) mod 0x40;
        0x80 + (cp / 0x40) mod 0x40; 0x80 + cp mod 0x40].
Proof.
  intros Hcp. unfold utf8.
  change 0x3F with (N.ones 6).
  rewrite !N.land_ones, !N.shiftr_div_pow2.
  change (2 ^ 6) with 0x40. change (2 ^ 12) with 0x1000. change (2 ^ 18) with 0x40000.
  assert (H80 : forall x, N.lor 0x80 (x mod 0x40) = 0x80 + x mod 0x40).
  { intros x. apply (lor_add 0x80 (x mod 0x40) 6); [reflexivity |].
    change (2 ^ 6) with 0x40. lia. }
  rewrite !H80.
  destruct (N.ltb_spec cp 0x80); [reflexivity |].
  destruct (N.ltb_spec cp 0x800).
  { rewrite (lor_add 0xC0 (cp / 0x40) 6); [reflexivity | reflexivity |].
    change (2 ^ 6) with 0x40. lia. }
  destruct (N.ltb_spec cp 0x10000).
  { rewrite (lor_add 0xE0 (cp / 0x1000) 5); [reflexivity | reflexivity |].
    change (2 ^ 5) with 0x20. lia. }
  rewrite (lor_add 0xF0 (cp / 0x40000) 4); [reflexivity | reflexivity |].
  change (2 ^ 4) with 0x10. lia.
Qed.

Lemma percent_arith b : percent b = [37; hexDigit (b / 0x10); hexDigit (b mod 0x10)].
Proof.
  unfold percent. change 0xF with (N.ones 4).
  rewrite N.land_ones, N.shiftr_div_pow2. reflexivity.
Qed.

Lemma hexValue_hexDigit d : d < 16 -> hexValue (hexDigit d) = Some d.
Proof.
  intros Hd. unfold hexDigit, hexValue, in_range.
  destruct (N.ltb_spec d 10).
  - replace (N.leb 48 (48 + d) && N.leb (48 + d) 57) with true
      by (symmetry; apply andb_true_iff; split; apply N.leb_le; lia).
    f_equal. lia.
  - replace (N.leb 48 (55 + d) && N.leb (55 + d) 57) with false
      by (symmetry; apply andb_false_iff; right; apply N.leb_gt; lia).
    replace (N.leb 65 (55 + d) && N.leb (55 + d) 70) with true
      by (symmetry; apply andb_true_iff; split; apply N.leb_le; lia).
    f_equal. lia.
Qed.

Lemma hexDigit_unreserved d : d < 16 -> uriUnreserved (hexDigit d) = true.
Proof.
  intros Hd. unfold hexDigit, uriUnreserved, in_range.
  destruct (N.ltb_spec d 10).
  - replace (N.leb 48 (48 + d) && N.leb (48 + d) 57) with true
      by (symmetry; apply andb_true_iff; split; apply N.leb_le; lia).
    rewrite !orb_true_r. reflexivity.
  - replace (N.leb 65 (55 + d) && N.leb (55 + d) 90) with true
      by (symmetry; apply andb_true_iff; split; apply N.leb_le; lia).
    reflexivity.
Qed.

(** [%XX] reads back as the octet it was written from. *)
Lemma octet_percent b :
  b < 0x100 ->
  octet 37 (hexDigit (b / 0x10)) (hexDigit (b mod 0x10)) = Some b.
Proof.
  intros Hb. unfold octet. cbn [N.eqb Pos.eqb].
  rewrite !hexValue_hexDigit by lia. f_equal. lia.
Qed.

Lemma octet_is_percent p h1 h2 b : octet p h1 h2 = Some b -> p = 37.
Proof.
  unfold octet. destruct (N.eqb_spec p 37); [auto | discriminate].
Qed.

Lemma uriUnreserved_not_percent c : uriUnreserved c = true -> N.eqb c 37 = false.
Proof.
  intros H. destruct (N.eqb_spec c 37) as [-> | _]; [| reflexivity].
  vm_compute in H. discriminate.
Qed.

(** How [decodeURIComponent] reads a sequence of one to four octets. *)
Lemma decode_plain c tl :
  N.eqb c 37 = false ->
  decodeURIComponent (c :: tl) = option_map (cons c) (decodeURIComponent tl).
Proof. intros H. cbn [decodeURIComponent]. rewrite H. reflexivity. Qed.

Lemma decode_1 b h1 h2 t :
  octet 37 h1 h2 = Some b -> b < 0x80 ->
  decodeURIComponent (37 :: h1 :: h2 :: t) = option_map (cons b) (decodeURIComponent t).
Proof.
  intros Ho Hb. cbn [decodeURIComponent N.eqb Pos.eqb negb]. rewrite Ho.
  destruct (N.ltb_spec b 0x80); [reflexivity | lia].
Qed.

Lemma decode_2 b1 b2 h1 h2 h3 h4 t :
  octet 37 h1 h2 = Some b1 -> octet 37 h3 h4 = Some b2 ->
  0xC0 <= b1 -> b1 < 0xE0 ->
  decodeURIComponent (37 :: h1 :: h2 :: 37 :: h3 :: h4 :: t) =
  match fromUtf8_2 b1 b2 with
  | Some v => option_map (app (utf16 v)) (decodeURIComponent t)
  | None => None
  end.
Proof.
  intros Ho1 Ho2 Hlo Hhi. cbn [decodeURIComponent N.eqb Pos.eqb negb]. rewrite Ho1, Ho2.
  destruct (N.ltb_spec b1 0x80); [lia |].
  destruct (N.ltb_spec b1 0xC0); [lia |].
  destruct (N.ltb_spec b1 0xE0); [reflexivity | lia].
Qed.

Lemma decode_3 b1 b2 b3 h1 h2 h3 h4 h5 h6 t :
  octet 37 h1 h2 = Some b1 -> octet 37 h3 h4 = Some b2 -> octet 37 h5 h6 = Some b3 ->
  0xE0 <= b1 -> b1 < 0xF0 ->
  decodeURIComponent (37 :: h1 :: h2 :: 37 :: h3 :: h4 :: 37 :: h5 :: h6 :: t) =
  match fromUtf8_3 b1 b2 b3 with
  | Some v => option_map (app (utf16 v)) (decodeURIComponent t)
  | None => None
  end.
Proof.
  intros Ho1 Ho2 Ho3 Hlo Hhi. cbn [decodeURIComponent N.eqb Pos.eqb negb].
  rewrite Ho1, Ho2, Ho3.
  destruct (N.ltb_spec b1 0x80); [lia |].
  destruct (N.ltb_spec b1 0xC0); [lia |].
  destruct (N.ltb_spec b1 0xE0); [lia |].
  destruct (N.ltb_spec b1 0xF0); [reflexivity | lia].
Qed.

Lemma decode_4 b1 b2 b3 b4 h1 h2 h3 h4 h5 h6 h7 h8 t :
  octet 37 h1 h2 = Some b1 -> octet 37 h3 h4 = Some b2 ->
  octet 37 h5 h6 = Some b3 -> octet 37 h7 h8 = Some b4 ->
  0xF0 <= b1 -> b1 < 0xF8 ->
  decodeURIComponent
    (37 :: h1 :: h2 :: 37 :: h3 :: h4 :: 37 :: h5 :: h6 :: 37 :: h7 :: h8 :: t) =
  match fromUtf8_4 b1 b2 b3 b4 with
  | Some v => option_map (app (utf16 v)) (decodeURIComponent t)
  | None => None
  end.
Proof.
  intros Ho1 Ho2 Ho3 Ho4 Hlo Hhi. cbn [decodeURIComponent N.eqb Pos.eqb negb].
  rewrite Ho1, Ho2, Ho3, Ho4.
  destruct (N.ltb_spec b1 0x80); [lia |].
  destruct (N.ltb_spec b1 0xC0); [lia |].
  destruct (N.ltb_spec b1 0xE0); [lia |].
  destruct (N.ltb_spec b1 0xF0); [lia |].
  destruct (N.ltb_spec b1 0xF8); [reflexivity | lia].
Qed.

Lemma fromUtf8_2_utf8 cp :
  0x80 <= cp -> cp < 0x800 ->
  fromUtf8_2 (0xC0 + cp / 0x40) (0x80 + cp mod 0x40) = Some cp.
Proof.
  intros Hlo Hhi. unfold fromUtf8_2, continuation, in_range.
  match goal with
  | |- (if ?c then _ else _) = _ =>
      replace c with true
        by (symmetry; repeat (apply andb_true_iff; split); apply N.leb_le; lia)
  end.
  f_equal. lia.
Qed.

Lemma fromUtf8_3_utf8 cp :
  0x800 <= cp -> cp < 0x10000 -> in_range 0xD800 0xDFFF cp = false ->
  fromUtf8_3 (0xE0 + cp / 0x1000) (0x80 + (cp / 0x40) mod 0x40) (0x80 + cp mod 0x40)
  = Some cp.
Proof.
  intros Hlo Hhi Hs. unfold fromUtf8_3, continuation.
  replace ((0xE0 + cp / 0x1000 - 0xE0) * 0x1000
           + (0x80 + (cp / 0x40) mod 0x40 - 0x80) * 0x40
           + (0x80 + cp mod 0x40 - 0x80)) with cp by lia.
  rewrite Hs. unfold in_range.
  match goal with
  | |- (if ?c then _ else _) = _ =>
      replace c with true
        by (symmetry; repeat (apply andb_true_iff; split);
            try reflexivity; apply N.leb_le; lia)
  end.
  reflexivity.
Qed.

Lemma fromUtf8_4_utf8 cp :
  0x10000 <= cp -> cp < 0x110000 ->
  fromUtf8_4 (0xF0 + cp / 0x40000) (0x80 + (cp / 0x1000) mod 0x40)
             (0x80 + (cp / 0x40) mod 0x40) (0x80 + cp mod 0x40)
  = Some cp.
Proof.
  intros Hlo Hhi. unfold fromUtf8_4, continuation.
  replace ((0xF0 + cp / 0x40000 - 0xF0) * 0x40000
           + (0x80 + (cp / 0x1000) mod 0x40 - 0x80) * 0x1000
           + (0x80 + (cp / 0x40) mod 0x40 - 0x80) * 0x40
           + (0x80 + cp mod 0x40 - 0x80)) with cp by lia.
  unfold in_range.
  match goal with
  | |- (if ?c then _ else _) = _ =>
      replace c with true
        by (symmetry; repeat (apply andb_true_iff; split); apply N.leb_le; lia)
  end.
  reflexivity.
Qed.

(** An escaped code point decodes to its UTF-16 form. *)
Lemma decode_escape cp t :
  cp < 0x110000 -> in_range 0xD800 0xDFFF cp = false ->
  decodeURIComponent (escape cp ++ t) =
  option_map (app (utf16 cp)) (decodeURIComponent t).
Proof.
  intros Hcp Hs. unfold escape. rewrite (utf8_arith cp Hcp).
  destruct (N.ltb_spec cp 0x80) as [H1 | H1].
  { cbn [flat_map app]. rewrite percent_arith. cbn [app].
    rewrite (decode_1 cp) by (try apply octet_percent; lia).
    unfold utf16. destruct (N.ltb_spec cp 0x10000); [| lia].
    destruct (decodeURIComponent t); reflexivity. }
  destruct (N.ltb_spec cp 0x800) as [H2 | H2].
  { cbn [flat_map app]. rewrite !percent_arith. cbn [app].
    rewrite (decode_2 (0xC0 + cp / 0x40) (0x80 + cp mod 0x40))
      by (try apply octet_percent; lia).
    rewrite fromUtf8_2_utf8 by lia. reflexivity. }
  destruct (N.ltb_spec cp 0x10000) as [H3 | H3].
  { cbn [flat_map app]. rewrite !percent_arith. cbn [app].
    rewrite (decode_3 (0xE0 + cp / 0x1000) (0x80 + (cp / 0x40) mod 0x40)
                      (0x80 + cp mod 0x40))
      by (try apply octet_percent; lia).
    rewrite fromUtf8_3_utf8 by (try assumption; lia). reflexivity. }
  cbn [flat_map app]. rewrite !percent_arith. cbn [app].
  rewrite (decode_4 (0xF0 + cp / 0x40000) (0x80 + (cp / 0x1000) mod 0x40)
                    (0x80 + (cp / 0x40) mod 0x40) (0x80 + cp mod 0x40))
    by (try apply octet_percent; lia).
  rewrite fromUtf8_4_utf8 by lia. reflexivity.
Qed.

Lemma percent_safe b : b < 0x100 -> forallb uriSafe (percent b) = true.
Proof.
  intros Hb. rewrite percent_arith. unfold uriSafe. cbn [forallb].
  rewrite !hexDigit_unreserved by lia. reflexivity.
Qed.

Lemma escape_safe cp : cp < 0x110000 -> forallb uriSafe (escape cp) = true.
Proof.
  intros Hcp. unfold escape. rewrite (utf8_arith cp Hcp).
  destruct (N.ltb_spec cp 0x80); [| destruct (N.ltb_spec cp 0x800);
                                    [| destruct (N.ltb_spec cp 0x10000)]];
    cbn [flat_map]; rewrite ?forallb_app, ?percent_safe by lia; reflexivity.
Qed.

Lemma in_range_true lo hi c : in_range lo hi c = true -> lo <= c /\ c <= hi.
Proof.
  unfold in_range. intros H. apply andb_true_iff in H. destruct H as [H1 H2].
  apply N.leb_le in H1, H2. split; assumption.
Qed.

Lemma in_range_false lo hi c : in_range lo hi c = false -> c < lo \/ hi < c.
Proof.
  unfold in_range. intros H. apply andb_false_iff in H.
  destruct H as [H | H]; apply N.leb_gt in H; [left | right]; assumption.
Qed.

Lemma option_map_Some {A B} (f : A -> B) (o : option A) (y : B) :
  option_map f o = Some y -> exists x, o = Some x /\ y = f x.
Proof. destruct o; cbn; intros H; [injection H as <-; eauto | discriminate]. Qed.

(** The two halves of the round trip, by induction on the length. *)
Lemma encode_facts (n : nat) : forall s enc,
  (List.length s <= n)%nat ->
  isString s = true ->
  encodeURIComponent s = Some enc ->
  decodeURIComponent enc = Some s /\ forallb uriSafe enc = true.
Proof.
  unfold jsstring, code_unit.
  induction n as [| n IH]; intros s enc Hlen Hstr Henc.
  - destruct s; [| cbn in Hlen; lia]. cbn in Henc. injection Henc as <-. split; reflexivity.
  - destruct s as [| c tl]; [cbn in Henc; injection Henc as <-; split; reflexivity |].
    cbn in Hlen. cbn [isString forallb] in Hstr. apply andb_true_iff in Hstr.
    destruct Hstr as [Hc Htl]. apply N.ltb_lt in Hc.
    cbn [encodeURIComponent] in Henc.
    destruct (uriUnreserved c) eqn:Hu.
    + apply option_map_Some in Henc. destruct Henc as (e & He & ->).
      destruct (IH tl e) as [Hd Hsafe]; [lia | exact Htl | exact He |].
      unfold jsstring, code_unit in *.
      rewrite (decode_plain c e (uriUnreserved_not_percent c Hu)), Hd.
      split; [reflexivity |]. cbn [forallb]. unfold uriSafe at 1. rewrite Hu, Hsafe.
      reflexivity.
    + destruct (is_trail_surrogate c) eqn:Ht; [discriminate |].
      destruct (is_lead_surrogate c) eqn:Hl.
      * destruct tl as [| d tl']; [discriminate |].
        destruct (is_trail_surrogate d) eqn:Hd; [| discriminate].
        apply option_map_Some in Henc. destruct Henc as (e & He & ->).
        cbn [forallb] in Htl. apply andb_true_iff in Htl. destruct Htl as [_ Htl'].
        destruct (IH tl' e) as [Hdec Hsafe]; [cbn in Hlen; lia | exact Htl' | exact He |].
        apply in_range_true in Hl, Hd.
        set (cp := (c - 0xD800) * 0x400 + (d - 0xDC00) + 0x10000).
        assert (Hcp : 0x10000 <= cp /\ cp < 0x110000) by (subst cp; lia).
        unfold jsstring, code_unit in *.
        rewrite decode_escape, Hdec, forallb_app, escape_safe, Hsafe;
          try lia; [| unfold in_range; apply andb_false_iff; right; apply N.leb_gt; lia].
        split; [| reflexivity]. cbn [option_map]. f_equal. unfold utf16.
        destruct (N.ltb_spec cp 0x10000); [lia |].
        cbn [app]. f_equal; [| f_equal]; subst cp; lia.
      * apply option_map_Some in Henc. destruct Henc as (e & He & ->).
        destruct (IH tl e) as [Hdec Hsafe]; [lia | exact Htl | exact He |].
        apply in_range_false in Ht, Hl.
        unfold jsstring, code_unit in *.
        rewrite decode_escape, Hdec, forallb_app, escape_safe, Hsafe;
          try lia;
          [| unfold in_range; apply andb_false_iff;
             destruct (N.lt_ge_cases c 0xD800);
             [left | right]; apply N.leb_gt; lia].
        split; [| reflexivity]. cbn [option_map]. f_equal. unfold utf16.
        destruct (N.ltb_spec c 0x10000); [reflexivity | lia].
Qed.

(** A string without a percent sign decodes to itself. *)
Lemma decode_no_percent s :
  forallb (fun c => negb (N.eqb c 37)) s = true -> decodeURIComponent s = Some s.
Proof.
  induction s as [| c tl IH]; [reflexivity |].
  cbn [forallb]. intros H. apply andb_true_iff in H. destruct H as [Hc Htl].
  apply negb_true_iff in Hc. rewrite (decode_plain c tl Hc), (IH Htl). reflexivity.
Qed.

Lemma eqb_eq a : forall b, eqb a b = true <-> a = b.
Proof.
  induction a as [| x a IH]; intros [| y b]; cbn; split; try congruence; try discriminate.
  - intros H. apply andb_true_iff in H. destruct H as [H1 H2].
    apply N.eqb_eq in H1. apply IH in H2. congruence.
  - intros H. injection H as <- <-. rewrite N.eqb_refl. apply IH. reflexivity.
Qed.

Lemma eqb_refl a : eqb a a = true.
Proof. apply eqb_eq. reflexivity. Qed.

End URIFacts.

(** ** The helpers of the notifier *)

Section Helpers.

Import URI URIFacts.

Lemma matchLastSegment_spec s :
  match matchLastSegment s with
  | Some m => noSlash m = true /\ m <> []
              /\ exists pre, s = pre ++ m /\ (pre = [] \/ exists p, pre = p ++ [47%N])
  | None => s = [] \/ exists p, s = p ++ [47%N]
  end.
Proof.
  induction s as [| c tl IH]; [left; reflexivity |].
  cbn [matchLastSegment].
  destruct (noSlash (c :: tl)) eqn:Hns.
  - split; [exact Hns |]. split; [discriminate |]. exists []. split; [reflexivity | left; reflexivity].
  - assert (Hc : noSlash tl = true -> c = 47%N).
    { intros Htl. cbn in Hns. unfold noSlash in Htl. rewrite Htl, andb_true_r in Hns.
      apply negb_false_iff, N.eqb_eq in Hns. exact Hns. }
    destruct (matchLastSegment tl) as [m |].
    + destruct IH as (Hm & Hne & pre & -> & Hpre). split; [exact Hm |]. split; [exact Hne |].
      exists (c :: pre). split; [reflexivity |]. right.
      destruct Hpre as [-> | (p & ->)].
      * exists []. cbn. f_equal. apply Hc. exact Hm.
      * exists (c :: p). reflexivity.
    + right. destruct IH as [-> | (p & ->)].
      * exists []. cbn. f_equal. apply Hc. reflexivity.
      * exists (c :: p). reflexivity.
Qed.

(** X1. [extractAnnouncementCode] returns what follows the last slash of
    its argument: the result has no slash, and the argument is the result
    preceded by nothing or by a prefix that ends with a slash. So an
    argument without a slash is returned as it is, and an empty argument,
    or one that ends with a slash, gives the empty string. *)
Theorem extractAnnouncementCode_last_segment url :
  noSlash (extractAnnouncementCode url) = true
  /\ (exists pre, url = pre ++ extractAnnouncementCode url
                  /\ (pre = [] \/ exists p, pre = p ++ [47%N]))
  /\ (noSlash url = true -> extractAnnouncementCode url = url)
  /\ extractAnnouncementCode (url ++ [47%N]) = [].
Proof.
  unfold extractAnnouncementCode.
  pose proof (matchLastSegment_spec url) as H.
  pose proof (matchLastSegment_spec (url ++ [47%N])) as H'.
  split; [| split; [| split]].
  - destruct (matchLastSegment url); [apply H | reflexivity].
  - destruct (matchLastSegment url) as [m |]; [apply H |].
    exists url. rewrite app_nil_r. split; [reflexivity | exact H].
  - intros Hns. destruct url as [| c tl]; [reflexivity |].
    cbn [matchLastSegment]. rewrite Hns. reflexivity.
  - destruct (matchLastSegment (url ++ [47%N])) as [m |]; [| reflexivity].
    exfalso. destruct H' as (Hm & Hne & pre & E & _).
    destruct (exists_last Hne) as (m' & x & ->).
    rewrite app_assoc in E. apply app_inj_tail in E. destruct E as [_ <-].
    unfold noSlash in Hm. rewrite forallb_app in Hm. cbn in Hm.
    rewrite andb_false_r in Hm. discriminate.
Qed.

(** X2. On a title that is a well-formed UTF-16 string,
    [getAnnouncementUrl] returns the announcement prefix, the encoded
    title, a dash and the code; the encoded title is made of unreserved
    characters and percent signs only (no slash, no space, no non-ASCII
    character) and [decodeURIComponent] gives the title back. On a title
    with an unpaired surrogate it throws [URIError]. *)
Theorem getAnnouncementUrl_encodes_title title code w :
  isString title = true ->
  if isWellFormed title
  then exists enc,
         getAnnouncementUrl title code w =
         mkRun (Return (lit "https://www.binance.com/zh-CN/support/announcement/"
                          ++ enc ++ lit "-" ++ code)) w []
         /\ forallb uriSafe enc = true
         /\ decodeURIComponent enc = Some title
  else getAnnouncementUrl title code w = mkRun (Throw URIError) w [].
Proof.
  intros Hstr. unfold getAnnouncementUrl.
  destruct (isWellFormed title) eqn:Hwf.
  - destruct (encodeURIComponent title) as [enc |] eqn:He.
    + exists enc. split; [reflexivity |].
      destruct (encode_facts (List.length title) title enc (Nat.le_refl _) Hstr He).
      split; assumption.
    + apply encodeURIComponent_throws in He. congruence.
  - apply encodeURIComponent_throws in Hwf. rewrite Hwf. reflexivity.
Qed.

End Helpers.

(** ** What the notifier posts *)

Section Posts.

Variable env : Env.

Lemma requests_app a b : requests (a ++ b) = requests a ++ requests b.
Proof. apply flat_map_app. Qed.

Lemma posted_nil_requests evs : posted evs = [] -> requests evs = [].
Proof.
  induction evs as [| e evs IH]; [reflexivity |].
  destruct e; cbn; try exact IH. discriminate.
Qed.

Lemma requests_issue_effects payload hooks : forall k,
  requests (issue_effects payload k hooks) =
  numbered (fun i h => (i, Webhook.url h, headersFor h, payload)) k hooks.
Proof.
  induction hooks as [| h rest IH]; intros k; [reflexivity |].
  cbn [issue_effects numbered]. rewrite <- IH. reflexivity.
Qed.

Lemma notifyWebhooks_requests a w enc :
  encodeURIComponent (Announcement.title a) = Some enc ->
  completion (notifyWebhooks env a w) = Return tt
  /\ requests (effects (notifyWebhooks env a w)) =
     numbered (fun i h => (i, Webhook.url h, headersFor h,
                           payloadFor (clock env (ticks w)) a enc))
              (posts w) (webhooks (this w)).
Proof.
  intros He.
  set (w1 := mkWorld (this w) (storage w) (gets w) (posts w) (picks w) (S (ticks w))).
  set (payload := payloadFor (clock env (ticks w)) a enc).
  destruct (Promise_all_run env (pendings env (posts w1) (webhooks (this w1)))
                            (add_posts (List.length (webhooks (this w1))) w1))
    as (w2 & e2 & Hr & _ & _ & _ & _ & _ & _ & _ & _ & Hp & _).
  assert (Hrun : notifyWebhooks env a w =
                 mkRun (Return tt) w2
                       (EvNotify a :: issue_effects payload (posts w) (webhooks (this w))
                                 ++ e2)).
  { unfold notifyWebhooks.
    rewrite (@bind_Return _ _ (emit _) _ w tt w [EvNotify a]) by reflexivity.
    unfold getAnnouncementUrl. rewrite He.
    rewrite (@bind_Return _ _ (ret _) _ w _ w []) by reflexivity.
    rewrite (@bind_Return _ _ (Date_now env) _ w (clock env (ticks w)) w1 []) by reflexivity.
    rewrite (@bind_Return _ _ (read _) _ w1 (webhooks (this w1)) w1 []) by reflexivity.
    rewrite (bind_Return _ _ (issue_all_run env _ (webhooks (this w1)) w1)).
    rewrite Hr. reflexivity. }
  rewrite Hrun. cbn [completion effects]. split; [reflexivity |].
  change (EvNotify a :: ?x) with ([EvNotify a] ++ x).
  rewrite !requests_app, requests_issue_effects, (posted_nil_requests e2 Hp), app_nil_r.
  reflexivity.
Qed.

(** X3. On an entry whose title encodes to [enc], [notifyWebhooks] posts
    to every subscriber, in order, one and the same body: the title, the
    raw code and the publish date of the entry, the time of one clock
    reading, and the url made of the encoded title and of what follows the
    last slash of the code. Each POST carries the JSON content type and,
    exactly when the subscriber's secret is not empty, the secret. *)
Theorem notifyWebhooks_posts_one_payload a w enc :
  encodeURIComponent (Announcement.title a) = Some enc ->
  requests (effects (notifyWebhooks env a w)) =
  numbered (fun i h =>
              (i, Webhook.url h,
               (lit "Content-Type", lit "application/json")
                 :: (if truthy (Webhook.secret h)
                     then [(lit "X-Webhook-Secret", Webhook.secret h)]
                     else []),
               payloadFor (clock env (ticks w)) a enc))
           (posts w) (webhooks (this w)).
Proof. intros He. exact (proj2 (notifyWebhooks_requests a w enc He)). Qed.

End Posts.

(** ** The admin surface *)

Section Router.

Import URI URIFacts.

Variable env : Env.

Ltac run_route :=
  unfold fetch, request_json, bind, update, read, ret, throw, storage_put_webhooks,
    storage_put_watchList, set_this, set_storage, set_webhooks, set_watchList,
    json_response, not_found, subscribed;
  cbn.

Lemma numbered_app {A} (f : nat -> Webhook.t -> A) l x : forall k,
  numbered f k (l ++ [x]) = numbered f k l ++ [f (k + List.length l) x].
Proof.
  induction l as [| h l IH]; intros k; cbn.
  - rewrite Nat.add_0_r. reflexivity.
  - rewrite IH, Nat.add_succ_r. reflexivity.
Qed.

(** X4. [POST /webhook] appends the subscriber of the body at the end of
    the list, whether or not its url is already there, persists the whole
    list and answers 200: the number of subscribers with that url grows by
    one. *)
Theorem fetch_register_appends w body :
  completion (fetch env (Request.mk (lit "POST") (lit "/webhook") (BodyObject body)) w) =
  Return (Response.mk 200 true (Message (lit "Webhook registered")))
  /\ webhooks (this (world (fetch env (Request.mk (lit "POST") (lit "/webhook")
                                                  (BodyObject body)) w))) =
     webhooks (this w) ++ [Webhook.mk (b_secret body) (b_url body)]
  /\ st_webhooks (storage (world (fetch env (Request.mk (lit "POST") (lit "/webhook")
                                                        (BodyObject body)) w))) =
     Some (webhooks (this w) ++ [Webhook.mk (b_secret body) (b_url body)])
  /\ List.length (subscribed (b_url body)
                    (world (fetch env (Request.mk (lit "POST") (lit "/webhook")
                                                  (BodyObject body)) w))) =
     S (List.length (subscribed (b_url body) w)).
Proof.
  run_route. repeat split.
  rewrite filter_app, length_app. cbn. rewrite eqb_refl. cbn. lia.
Qed.

(** X5. After [POST /webhook], a notification posts to the earlier
    subscribers as before and then to the new one, with the same body; a
    url registered twice is posted to twice. *)
Theorem fetch_register_then_notify w body a enc :
  encodeURIComponent (Announcement.title a) = Some enc ->
  requests (effects (notifyWebhooks env a
                       (world (fetch env (Request.mk (lit "POST") (lit "/webhook")
                                                     (BodyObject body)) w)))) =
  requests (effects (notifyWebhooks env a w))
  ++ [(posts w + List.length (webhooks (this w)), b_url body,
       headersFor (Webhook.mk (b_secret body) (b_url body)),
       payloadFor (clock env (ticks w)) a enc)].
Proof.
  intros He.
  rewrite (proj2 (notifyWebhooks_requests env a _ enc He)).
  rewrite (proj2 (notifyWebhooks_requests env a w enc He)).
  run_route. rewrite numbered_app. reflexivity.
Qed.

Lemma delete_route p :
  startsWith (lit "/webhook/" ++ p) (lit "/webhook/") = true
  /\ skipn 9 (lit "/webhook/" ++ p) = p.
Proof. split; [cbn; destruct p; reflexivity | reflexivity]. Qed.

Lemma filter_none u l :
  filter (fun h => eqb (Webhook.url h) u) l = [] ->
  filter (fun h => negb (eqb (Webhook.url h) u)) l = l.
Proof.
  induction l as [| h l IH]; [reflexivity |]. cbn.
  destruct (eqb (Webhook.url h) u); [discriminate |].
  intros H. cbn. rewrite (IH H). reflexivity.
Qed.

Lemma filter_removed u l :
  filter (fun h => eqb (Webhook.url h) u)
         (filter (fun h => negb (eqb (Webhook.url h) u)) l) = [].
Proof.
  induction l as [| h l IH]; [reflexivity |]. cbn.
  destruct (eqb (Webhook.url h) u) eqn:E; cbn; [exact IH |].
  rewrite E. exact IH.
Qed.

Lemma fetch_delete_run w p j u :
  decodeURIComponent p = Some u ->
  fetch env (Request.mk (lit "DELETE") (lit "/webhook/" ++ p) j) w =
  mkRun (Return (Response.mk 200 true (Message (lit "Webhook deleted"))))
        (mkWorld (set_webhooks
                    (filter (fun h => negb (eqb (Webhook.url h) u)) (webhooks (this w)))
                    (this w))
                 (mkStorage
                    (Some (filter (fun h => negb (eqb (Webhook.url h) u))
                                  (webhooks (this w))))
                    (st_lastAnnouncementId (storage w)) (st_isMonitoring (storage w))
                    (st_watchList (storage w)) (st_alarm (storage w)))
                 (gets w) (posts w) (picks w) (ticks w))
        [].
Proof.
  intros Hd. unfold fetch. cbn [Request.method Request.pathname].
  destruct (delete_route p) as [-> ->]. rewrite Hd.
  change (eqb (lit "DELETE") (lit "POST")) with false.
  change (eqb (lit "DELETE") (lit "GET")) with false.
  change (eqb (lit "DELETE") (lit "DELETE")) with true.
  cbv iota. reflexivity.
Qed.

(** X6. [DELETE /webhook/<p>], when [p] decodes to [u], removes every
    subscriber whose url is [u] (all of them if it was registered more
    than once), keeps the others in their order, persists the list and
    answers 200, also when no subscriber had that url. *)
Theorem fetch_unregister_removes_all w p j u :
  decodeURIComponent p = Some u ->
  completion (fetch env (Request.mk (lit "DELETE") (lit "/webhook/" ++ p) j) w) =
  Return (Response.mk 200 true (Message (lit "Webhook deleted")))
  /\ webhooks (this (world (fetch env (Request.mk (lit "DELETE") (lit "/webhook/" ++ p) j) w)))
     = filter (fun h => negb (eqb (Webhook.url h) u)) (webhooks (this w))
  /\ st_webhooks
       (storage (world (fetch env (Request.mk (lit "DELETE") (lit "/webhook/" ++ p) j) w)))
     = Some (filter (fun h => negb (eqb (Webhook.url h) u)) (webhooks (this w)))
  /\ subscribed u (world (fetch env (Request.mk (lit "DELETE") (lit "/webhook/" ++ p) j) w))
     = []
  /\ (subscribed u w = [] ->
      webhooks (this (world (fetch env (Request.mk (lit "DELETE") (lit "/webhook/" ++ p) j) w)))
      = webhooks (this w)).
Proof.
  intros Hd. rewrite (fetch_delete_run w p j u Hd). cbn [completion world this storage].
  unfold subscribed. cbn.
  repeat split; [apply filter_removed | apply filter_none].
Qed.

(** X7. [DELETE /webhook/<p>] throws [URIError] when [p] is not a valid
    percent-encoding, and then changes nothing. *)
Theorem fetch_unregister_malformed w p j :
  decodeURIComponent p = None ->
  fetch env (Request.mk (lit "DELETE") (lit "/webhook/" ++ p) j) w =
  mkRun (Throw URIError) w [].
Proof.
  intros Hd. unfold fetch. cbn [Request.method Request.pathname].
  destruct (delete_route p) as [-> ->]. rewrite Hd.
  change (eqb (lit "DELETE") (lit "POST")) with false.
  change (eqb (lit "DELETE") (lit "GET")) with false.
  change (eqb (lit "DELETE") (lit "DELETE")) with true.
  reflexivity.
Qed.

(** X8. Registering a url that was not registered and then deleting it by
    its [encodeURIComponent] form (or by the url itself when it has no
    percent sign) restores the list of subscribers, in memory and in
    storage. *)
Theorem fetch_register_then_unregister w u s p j :
  subscribed u w = [] ->
  isString u = true ->
  encodeURIComponent u = Some p \/ (p = u /\ forallb (fun c => negb (N.eqb c 37)) u = true) ->
  webhooks (this (run env [Http (Request.mk (lit "POST") (lit "/webhook")
                                            (BodyObject (mkBody u s None)));
                           Http (Request.mk (lit "DELETE") (lit "/webhook/" ++ p) j)] w))
  = webhooks (this w)
  /\ st_webhooks
       (storage (run env [Http (Request.mk (lit "POST") (lit "/webhook")
                                           (BodyObject (mkBody u s None)));
                          Http (Request.mk (lit "DELETE") (lit "/webhook/" ++ p) j)] w))
     = Some (webhooks (this w)).
Proof.
  intros Hnew Hstr Hp.
  assert (Hd : decodeURIComponent p = Some u).
  { destruct Hp as [He | [-> Hnp]].
    - apply (encode_facts (List.length u) u p (Nat.le_refl _) Hstr He).
    - apply decode_no_percent, Hnp. }
  cbn [run step]. rewrite (fetch_delete_run _ p j u Hd).
  cbn [world this storage set_webhooks webhooks st_webhooks].
  assert (E : filter (fun h => negb (eqb (Webhook.url h) u))
                     (webhooks (this (world (fetch env
                        (Request.mk (lit "POST") (lit "/webhook")
                                    (BodyObject (mkBody u s None))) w)))) =
              webhooks (this w)).
  { run_route. rewrite filter_app. cbn. rewrite eqb_refl. cbn.
    rewrite app_nil_r. apply filter_none, Hnew. }
  rewrite E. split; reflexivity.
Qed.

(** X9. [POST /watch] with an array replaces the watch list and persists
    it, and [GET /watch] then answers with that array; with anything but
    an array it answers 400 and changes nothing. [DELETE /watch] empties
    the list. *)
Theorem fetch_watch_list w u s coins :
  (let r := fetch env (Request.mk (lit "POST") (lit "/watch")
                                  (BodyObject (mkBody u s (Some coins)))) w in
   completion r =
   Return (Response.mk 200 true (MessageWatchList (lit "Watch list updated") coins))
   /\ watchList (this (world r)) = coins
   /\ st_watchList (storage (world r)) = Some coins
   /\ fetch env (Request.mk (lit "GET") (lit "/watch") BodyRejected) (world r) =
      mkRun (Return (Response.mk 200 true (WatchListBody coins))) (world r) [])
  /\ fetch env (Request.mk (lit "POST") (lit "/watch") (BodyObject (mkBody u s None))) w =
     mkRun (Return (Response.mk 400 false
                      (Text (lit "Invalid request: coins must be an array")))) w []
  /\ (let r := fetch env (Request.mk (lit "DELETE") (lit "/watch") BodyRejected) w in
      completion r =
      Return (Response.mk 200 true (MessageWatchList (lit "Watch list cleared") []))
      /\ watchList (this (world r)) = []
      /\ st_watchList (storage (world r)) = Some []).
Proof. run_route. repeat split. Qed.

Ltac route_cases :=
  unfold fetch, request_json;
  cbn [Request.method Request.pathname Request.json];
  repeat match goal with
  | |- context [if eqb ?a ?b then _ else _] => destruct (eqb a b) eqn:?
  | |- context [if startsWith ?a ?b then _ else _] => destruct (startsWith a b) eqn:?
  end.

(** X10. A request that matches none of the eight routes is answered 404
    "Not found" and has no effect at all: for instance [GET /start],
    [POST /webhook/], [DELETE /webhook] or any [PUT]. *)
Theorem fetch_unknown_route w m p j :
  routed m p = false ->
  fetch env (Request.mk m p j) w =
  mkRun (Return (Response.mk 404 false (Text (lit "Not found")))) w [].
Proof.
  intros H. unfold routed in H. route_cases; try reflexivity; exfalso;
    repeat match goal with
           | E : eqb _ _ = _ |- _ => rewrite E in H; clear E
           | E : startsWith _ _ = _ |- _ => rewrite E in H; clear E
           end;
    cbn in H; discriminate.
Qed.

(** X11. [POST /webhook] and [POST /watch] throw when the body is not
    JSON, before anything is changed; [POST /start] and [POST /stop] do
    not read the body. *)
Theorem fetch_body_rejected w :
  fetch env (Request.mk (lit "POST") (lit "/webhook") BodyRejected) w =
  mkRun (Throw SyntaxError) w []
  /\ fetch env (Request.mk (lit "POST") (lit "/watch") BodyRejected) w =
     mkRun (Throw SyntaxError) w []
  /\ completion (fetch env (Request.mk (lit "POST") (lit "/start") BodyRejected) w) =
     Return (Response.mk 200 true (Message (lit "Monitoring started")))
  /\ completion (fetch env (Request.mk (lit "POST") (lit "/stop") BodyRejected) w) =
     Return (Response.mk 200 true (Message (lit "Monitoring stopped"))).
Proof.
  run_route. repeat split.
  unfold start, bind, read, ret, update, storage_put_isMonitoring, Date_now,
    storage_setAlarm, emit. cbn.
  destruct (_isMonitoring (this w)); reflexivity.
Qed.

Ltac finish_route :=
  unfold start, stop, bind, read, ret, throw, update, emit, storage_put_isMonitoring,
    storage_put_webhooks, storage_put_watchList, storage_deleteAlarm, storage_setAlarm,
    Date_now, set_this, set_storage, set_webhooks, set_watchList, set_isMonitoring,
    json_response, not_found;
  cbn;
  repeat match goal with
         | |- context [match ?x with _ => _ end] => destruct x; cbn
         end.

(** X12. No request changes the last-seen marker, in memory or in
    storage, or the polling interval; and no request contacts the feed or
    a subscriber. *)
Theorem fetch_leaves_marker request w :
  lastAnnouncementId (this (world (fetch env request w))) = lastAnnouncementId (this w)
  /\ st_lastAnnouncementId (storage (world (fetch env request w))) =
     st_lastAnnouncementId (storage w)
  /\ pollingInterval (this (world (fetch env request w))) = pollingInterval (this w)
  /\ gets (world (fetch env request w)) = gets w
  /\ posts (world (fetch env request w)) = posts w
  /\ notified (effects (fetch env request w)) = []
  /\ posted (effects (fetch env request w)) = [].
Proof.
  destruct request as [m p j]. route_cases; finish_route; repeat split.
Qed.

End Router.

(** ** Starting, stopping, restarting *)

Section Lifecycle.

Import URI URIFacts.

Variable env : Env.

(** X13. After [start] monitoring is on, and a second [start] does
    nothing: it writes nothing and does not move the alarm. From a stopped
    actor, [start] persists the flag and arms the alarm one polling
    interval from now. *)
Theorem start_arms_once w :
  _isMonitoring (this (world (start env w))) = true
  /\ start env (world (start env w)) = mkRun (Return tt) (world (start env w)) []
  /\ if _isMonitoring (this w)
     then start env w = mkRun (Return tt) w []
     else st_isMonitoring (storage (world (start env w))) = Some true
          /\ st_alarm (storage (world (start env w))) =
             Some (clock env (ticks w) + pollingInterval (this w))%Z
          /\ armed (effects (start env w)) =
             [(clock env (ticks w) + pollingInterval (this w))%Z].
Proof.
  unfold start, bind, read, ret, update, storage_put_isMonitoring, Date_now,
    storage_setAlarm, emit, set_this, set_storage, set_isMonitoring.
  cbn. destruct (_isMonitoring (this w)) eqn:Hm; cbn; rewrite ?Hm; cbn; repeat split.
Qed.

(** X14. [stop] turns monitoring off, persists that and cancels the alarm,
    whatever the state was; the next cycle then arms nothing, and a
    [start] after it arms the alarm again. *)
Theorem stop_cancels_alarm w :
  _isMonitoring (this (world (stop w))) = false
  /\ st_isMonitoring (storage (world (stop w))) = Some false
  /\ st_alarm (storage (world (stop w))) = None
  /\ armed (effects (alarm env (world (stop w)))) = []
  /\ st_alarm (storage (world (alarm env (world (stop w))))) = None
  /\ st_alarm (storage (world (start env (world (stop w))))) =
     Some (clock env (ticks w) + pollingInterval (this w))%Z.
Proof.
  destruct (stop_unarms env w) as (_ & H1 & H2 & H3 & H4 & H5).
  repeat split; assumption.
Qed.

(** X15. A restart resumes polling exactly when the persisted flag is
    true: the constructor then arms the alarm one polling interval from
    now, and otherwise sets no alarm. The polling interval is the parsed
    [POLLING_INTERVAL], or 3000 when that is [NaN] or 0, so it is never
    0. *)
Theorem constructor_resumes_polling interval w :
  pollingInterval (this (world (constructor env interval w))) = number_or interval 3000
  /\ pollingInterval (this (world (constructor env interval w))) <> 0%Z
  /\ _isMonitoring (this (world (constructor env interval w))) =
     or_default (st_isMonitoring (storage w)) false
  /\ armed (effects (constructor env interval w)) =
     (if or_default (st_isMonitoring (storage w)) false
      then [(clock env (ticks w) + number_or interval 3000)%Z]
      else [])
  /\ st_alarm (storage (world (constructor env interval w))) =
     (if or_default (st_isMonitoring (storage w)) false
      then Some (clock env (ticks w) + number_or interval 3000)%Z
      else st_alarm (storage w)).
Proof.
  assert (Hnz : number_or interval 3000 <> 0%Z).
  { unfold number_or. destruct interval as [n |]; [| discriminate].
    destruct (Z.eqb_spec n 0); [discriminate | assumption]. }
  unfold constructor, console_log, rearm, bind, emit, update, read, Date_now,
    storage_setAlarm, ret.
  cbn. destruct (or_default (st_isMonitoring (storage w)) false); cbn;
    repeat split; exact Hnz.
Qed.

Lemma alarm_frame w :
  webhooks (this (world (alarm env w))) = webhooks (this w)
  /\ watchList (this (world (alarm env w))) = watchList (this w)
  /\ _isMonitoring (this (world (alarm env w))) = _isMonitoring (this w)
  /\ pollingInterval (this (world (alarm env w))) = pollingInterval (this w)
  /\ st_webhooks (storage (world (alarm env w))) = st_webhooks (storage w)
  /\ st_watchList (storage (world (alarm env w))) = st_watchList (storage w)
  /\ st_isMonitoring (storage (world (alarm env w))) = st_isMonitoring (storage w).
Proof.
  destruct (alarm_shape env w)
    as (wb & eb & -> & (H1 & H2 & H3 & H4) & (H5 & H6 & H7) & _).
  destruct (rearm_frame env wb) as (R1 & R2 & _ & R4 & R5 & _).
  cbn [world]. rewrite R1, R2, R4, R5. repeat split; assumption.
Qed.

(** X16. A cycle never changes the subscribers, the watch list, the
    monitoring flag or the polling interval, in memory or in storage. *)
Theorem alarm_leaves_control_state w :
  webhooks (this (world (alarm env w))) = webhooks (this w)
  /\ watchList (this (world (alarm env w))) = watchList (this w)
  /\ _isMonitoring (this (world (alarm env w))) = _isMonitoring (this w)
  /\ pollingInterval (this (world (alarm env w))) = pollingInterval (this w)
  /\ st_webhooks (storage (world (alarm env w))) = st_webhooks (storage w)
  /\ st_watchList (storage (world (alarm env w))) = st_watchList (storage w)
  /\ st_isMonitoring (storage (world (alarm env w))) = st_isMonitoring (storage w).
Proof. exact (alarm_frame w). Qed.

Lemma mirrored_alarm w : mirrored w -> mirrored (world (alarm env w)).
Proof.
  unfold mirrored. destruct (alarm_frame w) as (-> & -> & -> & _ & -> & -> & ->). tauto.
Qed.

Lemma mirrored_constructor interval w : mirrored (world (constructor env interval w)).
Proof.
  unfold mirrored, constructor, console_log, rearm, bind, emit, update, read, Date_now,
    storage_setAlarm, ret.
  cbn. destruct (or_default (st_isMonitoring (storage w)) false) eqn:E; cbn;
    repeat split; exact E.
Qed.

Lemma mirrored_fetch request w : mirrored w -> mirrored (world (fetch env request w)).
Proof.
  unfold mirrored. intros (H1 & H2 & H3).
  destruct request as [m p j].
  unfold fetch, request_json;
  cbn [Request.method Request.pathname Request.json];
  repeat match goal with
  | |- context [if eqb ?a ?b then _ else _] => destruct (eqb a b) eqn:?
  | |- context [if startsWith ?a ?b then _ else _] => destruct (startsWith a b) eqn:?
  end;
  unfold start, stop, bind, read, ret, throw, update, emit, storage_put_isMonitoring,
    storage_put_webhooks, storage_put_watchList, storage_deleteAlarm, storage_setAlarm,
    Date_now, set_this, set_storage, set_webhooks, set_watchList, set_isMonitoring,
    json_response, not_found;
  cbn;
  repeat match goal with
         | |- context [match ?x with _ => _ end] => destruct x eqn:?; cbn
         end;
  repeat split; try assumption; congruence.
Qed.

Lemma marker_kept_alarm w : marker_kept w -> marker_kept (world (alarm env w)).
Proof.
  unfold marker_kept. rewrite alarm_marker, alarm_stored. unfold walked.
  destruct (fetched env w) as [| a rest];
    [destruct (lastAnnouncementId (this w)); tauto |].
  destruct (lastAnnouncementId (this w)) as [l |]; [| intros _; reflexivity].
  intros H.
  destruct (Z.eqb_spec (Announcement.id a) l) as [E | _].
  - rewrite (before_head l a rest) by (apply Z.eqb_eq, E). cbn. congruence.
  - destruct (all_wellFormed (filter has_marker (before l (a :: rest))));
      [reflexivity | exact H].
Qed.

Lemma marker_kept_constructor interval w : marker_kept (world (constructor env interval w)).
Proof.
  unfold marker_kept, constructor, console_log, rearm, bind, emit, update, read, Date_now,
    storage_setAlarm, ret.
  cbn. destruct (or_default (st_isMonitoring (storage w)) false); cbn;
    destruct (st_lastAnnouncementId (storage w)) as [n |]; cbn; try reflexivity;
      destruct (Z.eqb n 0) eqn:E; cbn; rewrite ?E; reflexivity.
Qed.

Lemma marker_kept_fetch request w : marker_kept w -> marker_kept (world (fetch env request w)).
Proof.
  unfold marker_kept.
  destruct (fetch_leaves_marker env request w) as (-> & -> & _). tauto.
Qed.

Lemma run_keeps ops : forall w,
  mirrored w /\ marker_kept w -> mirrored (run env ops w) /\ marker_kept (run env ops w).
Proof.
  induction ops as [| op ops IH]; intros w [Hm Hk]; [split; assumption |].
  cbn [run]. apply IH. destruct op as [| request | interval]; cbn [step].
  - split; [apply mirrored_alarm | apply marker_kept_alarm]; assumption.
  - split; [apply mirrored_fetch | apply marker_kept_fetch]; assumption.
  - split; [apply mirrored_constructor | apply marker_kept_constructor].
Qed.

(** X17. The control state survives a restart. Starting from an actor
    whose storage mirrors its fields (as it does right after
    construction), after any sequence of wakes, requests and restarts a
    further restart restores the subscribers, the watch list and the
    monitoring flag exactly as they were, and the last-seen marker too,
    except that a marker 0 is restored as null. *)
Theorem restart_restores_control_state ops w interval :
  mirrored w -> marker_kept w ->
  webhooks (this (world (constructor env interval (run env ops w)))) =
  webhooks (this (run env ops w))
  /\ watchList (this (world (constructor env interval (run env ops w)))) =
     watchList (this (run env ops w))
  /\ _isMonitoring (this (world (constructor env interval (run env ops w)))) =
     _isMonitoring (this (run env ops w))
  /\ lastAnnouncementId (this (world (constructor env interval (run env ops w)))) =
     match lastAnnouncementId (this (run env ops w)) with
     | Some 0%Z => None
     | marker => marker
     end.
Proof.
  intros Hm Hk.
  destruct (run_keeps ops w (conj Hm Hk)) as [(H1 & H2 & H3) H4].
  revert H1 H2 H3 H4. generalize (run env ops w). intros w1 H1 H2 H3 H4.
  rewrite constructor_marker. unfold marker_kept in H4.
  unfold constructor, console_log, rearm, bind, emit, update, read, Date_now,
    storage_setAlarm, ret.
  cbn. destruct (or_default (st_isMonitoring (storage w1)) false) eqn:E; cbn;
    (split; [exact H1 |]; split; [exact H2 |]; split; [congruence |]);
    destruct (lastAnnouncementId (this w1)) as [v |]; try exact H4;
      rewrite H4; cbn; destruct v; reflexivity.
Qed.

End Lifecycle.

(** ** Successive cycles *)

Section Repeats.

Variable env : Env.

Lemma alarm_persisted w :
  persisted (effects (alarm env w)) =
  match fetched env w with
  | [] => []
  | a :: _ =>
      match lastAnnouncementId (this w) with
      | None => [Announcement.id a]
      | Some l =>
          if Z.eqb (Announcement.id a) l then []
          else if all_wellFormed (walked env w) then [Announcement.id a] else []
      end
  end.
Proof.
  destruct (alarm_run env w) as (ef & wb & eb & Hq & -> & Hcase).
  destruct Hq as (_ & _ & _ & Hqp & _).
  destruct (rearm_frame env wb) as (_ & _ & _ & _ & _ & _ & _ & _ & Rp).
  cbn [effects]. autorewrite with obs. rewrite Hqp, Rp, app_nil_r. cbn [app].
  unfold walked.
  destruct (fetched env w) as [| a rest].
  - destruct Hcase as [_ ->].
    destruct (rearm_frame env (next_get w)) as (_ & _ & _ & _ & _ & _ & _ & _ & Rq).
    exact Rq.
  - destruct (lastAnnouncementId (this w)) as [l |].
    + destruct (Z.eqb (Announcement.id a) l).
      * destruct Hcase as [_ ->]. reflexivity.
      * destruct Hcase as (w1 & e1 & _ & _ & _ & _ & _ & Hp & _ & Hif).
        unfold all_wellFormed.
        destruct (forallb (fun x => isWellFormed (Announcement.title x))
                          (filter has_marker (before l (a :: rest))));
          destruct Hif as [_ ->]; autorewrite with obs; rewrite Hp; reflexivity.
    + destruct Hcase as [_ ->]. reflexivity.
Qed.

(** X18. A cycle writes the marker to storage at most once, and only the
    id of the first entry of its snapshot; it writes exactly when it
    changes the marker in memory, so a cycle on an empty snapshot, or on a
    snapshot that starts with the marker, writes nothing. A cycle on which
    the notifier throws (the walk hands it an entry whose title is not
    well formed) writes nothing either, and leaves the marker as it was in
    memory and in storage. *)
Theorem alarm_writes_marker_once w :
  ((persisted (effects (alarm env w)) = []
    /\ lastAnnouncementId (this (world (alarm env w))) = lastAnnouncementId (this w))
   \/ (exists a rest,
         fetched env w = a :: rest
         /\ lastAnnouncementId (this w) <> Some (Announcement.id a)
         /\ persisted (effects (alarm env w)) = [Announcement.id a]
         /\ lastAnnouncementId (this (world (alarm env w))) = Some (Announcement.id a)
         /\ st_lastAnnouncementId (storage (world (alarm env w))) =
            Some (Announcement.id a)))
  /\ (fetched env w = [] -> persisted (effects (alarm env w)) = [])
  /\ (forall a rest,
        fetched env w = a :: rest ->
        lastAnnouncementId (this w) = Some (Announcement.id a) ->
        persisted (effects (alarm env w)) = [])
  /\ (all_wellFormed (walked env w) = false ->
      persisted (effects (alarm env w)) = []
      /\ lastAnnouncementId (this (world (alarm env w))) = lastAnnouncementId (this w)
      /\ st_lastAnnouncementId (storage (world (alarm env w))) =
         st_lastAnnouncementId (storage w)).
Proof.
  split; [| split; [| split]].
  - rewrite alarm_persisted, alarm_marker, alarm_stored. unfold walked.
    destruct (fetched env w) as [| a rest]; [left; split; reflexivity |].
    destruct (lastAnnouncementId (this w)) as [l |].
    + destruct (Z.eqb_spec (Announcement.id a) l) as [E | NE].
      * left. rewrite (before_head l a rest) by (apply Z.eqb_eq, E). cbn.
        split; congruence.
      * destruct (all_wellFormed (filter has_marker (before l (a :: rest)))).
        -- right. exists a, rest. repeat split. congruence.
        -- left. split; reflexivity.
    + right. exists a, rest. repeat split. discriminate.
  - intros HS. rewrite alarm_persisted, HS. reflexivity.
  - intros a rest HS Hlast. rewrite alarm_persisted, HS, Hlast, Z.eqb_refl. reflexivity.
  - intros Hall. rewrite alarm_persisted, alarm_marker, alarm_stored, Hall.
    destruct (fetched env w) as [| a rest]; [repeat split |].
    destruct (lastAnnouncementId (this w)) as [l |] eqn:Hlast.
    + destruct (Z.eqb (Announcement.id a) l); repeat split.
    + unfold walked in Hall. rewrite Hlast in Hall. discriminate Hall.
Qed.

(** X19. No duplicate on a stable feed: when a cycle completes without
    the notifier throwing (every entry its walk hands to the notifier has
    a well-formed title; this includes every first run and every cycle
    whose snapshot is empty or starts with the marker) and the next cycle
    fetches the same snapshot, that next cycle invokes the notifier on no
    entry, writes nothing and leaves the marker as it is. *)
Theorem alarm_stable_feed_is_silent w :
  all_wellFormed (walked env w) = true ->
  fetched env (world (alarm env w)) = fetched env w ->
  notified (effects (alarm env (world (alarm env w)))) = []
  /\ persisted (effects (alarm env (world (alarm env w)))) = []
  /\ lastAnnouncementId (this (world (alarm env (world (alarm env w))))) =
     lastAnnouncementId (this (world (alarm env w))).
Proof.
  intros Hall Hsame.
  assert (Hw : walked env (world (alarm env w)) = []).
  { unfold walked. rewrite Hsame, alarm_marker, Hall.
    destruct (fetched env w) as [| a rest].
    - destruct (lastAnnouncementId (this w)); reflexivity.
    - rewrite (before_head _ a rest) by apply Z.eqb_refl. reflexivity. }
  rewrite alarm_notified, alarm_persisted, (alarm_marker env (world (alarm env w))), Hw, Hsame.
  cbn [upto_first_malformed all_wellFormed forallb].
  rewrite (alarm_marker env w), Hall.
  destruct (fetched env w) as [| a rest]; [repeat split |].
  rewrite Z.eqb_refl. repeat split.
Qed.

Lemma upto_first_malformed_nonempty l : l <> [] -> upto_first_malformed l <> [].
Proof.
  destruct l as [| a l]; [congruence |]. intros _. cbn.
  destruct (isWellFormed (Announcement.title a)); discriminate.
Qed.

(** X20. When the walk of a cycle meets a listing whose title has an
    unpaired surrogate, the cycle leaves the marker as it was; so if the
    next cycle fetches the same snapshot, it invokes the notifier again on
    exactly the same entries, and the marker still does not move. *)
Theorem alarm_throwing_cycle_repeats w l x :
  lastAnnouncementId (this w) = Some l ->
  In x (before l (fetched env w)) ->
  has_marker x = true ->
  isWellFormed (Announcement.title x) = false ->
  fetched env (world (alarm env w)) = fetched env w ->
  lastAnnouncementId (this (world (alarm env w))) = Some l
  /\ notified (effects (alarm env w)) <> []
  /\ notified (effects (alarm env (world (alarm env w)))) = notified (effects (alarm env w))
  /\ lastAnnouncementId (this (world (alarm env (world (alarm env w))))) = Some l.
Proof.
  intros Hlast Hin Hm Hbad Hsame.
  assert (Hx : In x (walked env w)).
  { unfold walked. rewrite Hlast. apply filter_In. split; assumption. }
  assert (Hall : all_wellFormed (walked env w) = false).
  { destruct (all_wellFormed (walked env w)) eqn:E; [| reflexivity].
    unfold all_wellFormed in E. rewrite forallb_forall in E.
    rewrite (E x Hx) in Hbad. discriminate. }
  assert (Hkeep : lastAnnouncementId (this (world (alarm env w))) = Some l).
  { rewrite alarm_marker, Hall, Hlast. destruct (fetched env w); reflexivity. }
  assert (Hw : walked env (world (alarm env w)) = walked env w).
  { unfold walked. rewrite Hkeep, Hlast, Hsame. reflexivity. }
  split; [exact Hkeep |]. split.
  - rewrite alarm_notified. apply upto_first_malformed_nonempty.
    intros E. rewrite E in Hx. exact Hx.
  - rewrite !alarm_notified, (alarm_marker env (world (alarm env w))), Hw, Hall, Hkeep, Hsame.
    split; [reflexivity |]. destruct (fetched env w); reflexivity.
Qed.

End Repeats.

(** ** The watch list and the listing marker *)

Section WatchList.

Variable env : Env.

Lemma ignores_bind {A B} (m : M A) (f : A -> M B) :
  ignores_watchList m -> (forall a, ignores_watchList (f a)) ->
  ignores_watchList (bind m f).
Proof.
  intros Hm Hf l stored w. unfold bind. cbv zeta.
  generalize (Hm l stored w). generalize (m (rewatch l stored w)). intros r ->.
  cbn [completion world effects].
  destruct (completion (m w)) as [a | e]; [| reflexivity].
  rewrite Hf. reflexivity.
Qed.

Lemma ignores_try_catch {A} (body : M A) handler :
  ignores_watchList body -> (forall e, ignores_watchList (handler e)) ->
  ignores_watchList (try_catch body handler).
Proof.
  intros Hb Hh l stored w. unfold try_catch. cbv zeta.
  generalize (Hb l stored w). generalize (body (rewatch l stored w)). intros r ->.
  cbn [completion world effects].
  destruct (completion (body w)) as [a | e] eqn:E; cbn [completion world effects];
    rewrite ?E; [reflexivity |].
  rewrite Hh. reflexivity.
Qed.

Lemma ignores_try_finally {A} (body : M A) fin :
  ignores_watchList body -> ignores_watchList fin ->
  ignores_watchList (try_finally body fin).
Proof.
  intros Hb Hf l stored w. unfold try_finally. cbv zeta.
  generalize (Hb l stored w). generalize (body (rewatch l stored w)). intros r ->.
  cbn [completion world effects]. rewrite Hf. reflexivity.
Qed.

Ltac ignores_prim := intros l stored w; reflexivity.

Lemma ignores_ret {A} (a : A) : ignores_watchList (ret a).
Proof. ignores_prim. Qed.

Lemma ignores_throw {A} e : ignores_watchList (@throw A e).
Proof. ignores_prim. Qed.

Lemma ignores_emit e : ignores_watchList (emit e).
Proof. ignores_prim. Qed.

Lemma ignores_Date_now : ignores_watchList (Date_now env).
Proof. ignores_prim. Qed.

Lemma ignores_rearm : ignores_watchList (rearm env).
Proof.
  intros l stored w. rewrite !rearm_run. cbn.
  destruct (_isMonitoring (this w)); reflexivity.
Qed.

Lemma ignores_fetchAnnouncements : ignores_watchList (fetchAnnouncements env).
Proof.
  intros l stored w.
  unfold fetchAnnouncements, try_catch, bind, fetch_get, response_json,
    console_error, emit, throw, ret. cbn.
  destruct (feed env (gets w)) as [| [|] [| | [[[[x |]] |]]]]; reflexivity.
Qed.

Lemma ignores_settle p : ignores_watchList (settle p).
Proof.
  intros l stored w.
  unfold settle, try_catch, bind, emit, console_error, throw, ret.
  destruct (pd_response p) as [| [|] statusText]; reflexivity.
Qed.

Lemma ignores_issue_all payload hooks : ignores_watchList (issue_all env payload hooks).
Proof.
  induction hooks as [| h rest IH]; [apply ignores_ret |].
  cbn [issue_all]. apply ignores_bind; [ignores_prim |]. intros p.
  apply ignores_bind; [exact IH |]. intros ps. apply ignores_ret.
Qed.

Lemma ignores_settle_all fuel : forall pending,
  ignores_watchList (settle_all env fuel pending).
Proof.
  induction fuel as [| fuel IH]; intros [| p0 rest]; try apply ignores_ret.
  cbn [settle_all]. apply ignores_bind; [ignores_prim |]. intros i.
  apply ignores_bind; [apply ignores_settle |]. intros _. apply IH.
Qed.

Lemma ignores_notifyWebhooks a : ignores_watchList (notifyWebhooks env a).
Proof.
  unfold notifyWebhooks.
  apply ignores_bind; [apply ignores_emit |]. intros _.
  apply ignores_bind.
  { unfold getAnnouncementUrl. destruct (encodeURIComponent (Announcement.title a));
      [apply ignores_ret | apply ignores_throw]. }
  intros u. apply ignores_bind; [apply ignores_Date_now |]. intros now.
  apply ignores_bind; [ignores_prim |]. intros hooks.
  apply ignores_bind; [apply ignores_issue_all |]. intros ps.
  apply ignores_settle_all.
Qed.

Lemma ignores_walk S : ignores_watchList (walk env S).
Proof.
  induction S as [| a rest IH]; [apply ignores_ret |].
  cbn [walk]. apply ignores_bind; [ignores_prim |]. intros last.
  destruct (strict_eq (Announcement.id a) last); [apply ignores_ret |].
  apply ignores_bind; [| intros _; exact IH].
  destruct (includes (Announcement.title a) LISTING_MARKER);
    [apply ignores_notifyWebhooks | apply ignores_ret].
Qed.

Lemma ignores_advance v :
  ignores_watchList
    (bind (update (set_this (set_lastAnnouncementId (Some v))))
          (fun _ => storage_put_lastAnnouncementId v)).
Proof. ignores_prim. Qed.

Lemma ignores_alarm : ignores_watchList (alarm env).
Proof.
  unfold alarm. apply ignores_try_finally; [| apply ignores_rearm].
  apply ignores_try_catch; [| intros e; apply ignores_emit].
  apply ignores_bind; [apply ignores_fetchAnnouncements |]. intros [| first rest].
  - apply ignores_rearm.
  - apply ignores_bind; [ignores_prim |]. intros [l |].
    + destruct (negb (Z.eqb (Announcement.id first) l)); [| apply ignores_ret].
      apply ignores_bind; [apply ignores_walk |]. intros _. apply ignores_advance.
    + apply ignores_advance.
Qed.

(** X21. The detection cycle never consults the watch list: with any
    other watch list, in memory and in storage, a cycle completes in the
    same way, performs the same effects (the same entries notified, the
    same POSTs) and leaves the same state, the watch list itself being
    left as it was given. *)
Theorem alarm_ignores_watch_list l stored w :
  completion (alarm env (rewatch l stored w)) = completion (alarm env w)
  /\ effects (alarm env (rewatch l stored w)) = effects (alarm env w)
  /\ world (alarm env (rewatch l stored w)) = rewatch l stored (world (alarm env w)).
Proof. rewrite (ignores_alarm l stored w). repeat split. Qed.

Lemma startsWith_spec p : forall s,
  startsWith s p = true <-> exists post, s = p ++ post.
Proof.
  induction p as [| x p IH]; intros s.
  - destruct s; cbn; split; eauto.
  - destruct s as [| y s]; cbn.
    + split; [discriminate | intros [post H]; discriminate].
    + split.
      * intros H. apply andb_true_iff in H. destruct H as [Hxy Hs].
        apply N.eqb_eq in Hxy. apply IH in Hs. destruct Hs as [post ->].
        exists post. congruence.
      * intros [post H]. injection H as <- ->. rewrite N.eqb_refl. cbn.
        apply IH. eauto.
Qed.

Lemma includes_spec p : forall s,
  includes s p = true <-> exists pre post, s = pre ++ p ++ post.
Proof.
  induction s as [| c s IH]; cbn [includes].
  - rewrite orb_false_r, startsWith_spec. split.
    + intros [post H]. exists [], post. exact H.
    + intros (pre & post & H). destruct pre; [eauto |]. discriminate.
  - rewrite orb_true_iff, startsWith_spec, IH. split.
    + intros [[post H] | (pre & post & H)].
      * exists [], post. exact H.
      * exists (c :: pre), post. rewrite H. reflexivity.
    + intros (pre & post & H). destruct pre as [| c' pre].
      * left. exists post. exact H.
      * right. injection H as _ H. exists pre, post. exact H.
Qed.

(** X22. The listing test of the cycle: an entry carries the marker
    exactly when "Binance Will List" occurs in its title as a contiguous
    run of code units, case included; a title in another case, or with a
    character inserted, does not carry it. *)
Theorem has_marker_is_substring a :
  has_marker a = true <->
  exists pre post, Announcement.title a = pre ++ lit "Binance Will List" ++ post.
Proof. unfold has_marker, LISTING_MARKER. apply includes_spec. Qed.

Lemma cycles_gets_again n w : gets (cycles env n w) = gets w + n.
Proof.
  revert w. induction n as [| n IH]; intros w; [cbn; lia |].
  cbn [cycles]. rewrite IH, alarm_gets. lia.
Qed.

(** X23. Every wake fetches the feed exactly once, whatever it returns:
    [n] cycles consume exactly [n] responses of the feed, and the k-th
    cycle works on the snapshot of the k-th response. *)
Theorem cycles_fetch_once_each n w :
  gets (cycles env n w) = gets w + n
  /\ option_map Announcement.id (hd_error (fetched env (cycles env n w))) =
     newest (feed env (gets w + n)).
Proof.
  split; [apply cycles_gets_again |].
  rewrite fetched_newest, cycles_gets_again. reflexivity.
Qed.

End WatchList.

(** ** Concrete runs of the further properties *)

Section MoreRuns.

Import Sample AdminSample.

(** Witness of X2: the title of a listing. *)
Lemma getAnnouncementUrl_encodes_title_witness :
  isString (Announcement.title e5) = true
  /\ exists enc,
       getAnnouncementUrl (Announcement.title e5) (lit "abc123") (monitor None) =
       mkRun (Return (lit "https://www.binance.com/zh-CN/support/announcement/"
                        ++ enc ++ lit "-" ++ lit "abc123")) (monitor None) []
       /\ forallb uriSafe enc = true
       /\ URI.decodeURIComponent enc = Some (Announcement.title e5).
Proof.
  split; [reflexivity |].
  exact (getAnnouncementUrl_encodes_title (Announcement.title e5) (lit "abc123")
           (monitor None) eq_refl).
Defined.

(** Witness of X3: two subscribers, one with a secret. *)
Lemma notifyWebhooks_posts_one_payload_witness :
  encodeURIComponent (Announcement.title e5) = Some (lit "Binance%20Will%20List%20ABC")
  /\ requests (effects (notifyWebhooks (env_of []) e5 (monitor None))) =
     [(0, Webhook.url hookA,
       [(lit "Content-Type", lit "application/json");
        (lit "X-Webhook-Secret", lit "s3cret")],
       payloadFor 1700000000000 e5 (lit "Binance%20Will%20List%20ABC"));
      (1, Webhook.url hookB,
       [(lit "Content-Type", lit "application/json")],
       payloadFor 1700000000000 e5 (lit "Binance%20Will%20List%20ABC"))].
Proof.
  split; [reflexivity |].
  exact (notifyWebhooks_posts_one_payload (env_of []) e5 (monitor None)
           (lit "Binance%20Will%20List%20ABC") eq_refl).
Defined.

(** Witness of X5: a url that is already registered is registered again. *)
Lemma fetch_register_then_notify_witness :
  encodeURIComponent (Announcement.title e5) = Some (lit "Binance%20Will%20List%20ABC")
  /\ List.map (fun r => snd (fst (fst r)))
       (requests (effects (notifyWebhooks (env_of []) e5
          (world (fetch (env_of []) (register (Webhook.url hookA) []) (monitor None))))))
     = [Webhook.url hookA; Webhook.url hookB; Webhook.url hookA].
Proof.
  split; [reflexivity |].
  exact (eq_trans
           (f_equal (List.map (fun r => snd (fst (fst r))))
              (fetch_register_then_notify (env_of []) (monitor None)
                 (mkBody (Webhook.url hookA) [] None) e5
                 (lit "Binance%20Will%20List%20ABC") eq_refl))
           eq_refl).
Defined.

(** Witness of X6: deleting the first subscriber by its encoded url. *)
Lemma fetch_unregister_removes_all_witness :
  URI.decodeURIComponent hookA_encoded = Some (Webhook.url hookA)
  /\ webhooks (this (world (fetch (env_of [])
                              (delete (lit "/webhook/" ++ hookA_encoded)) (monitor None))))
     = [hookB].
Proof.
  split; [reflexivity |].
  exact (proj1 (proj2 (fetch_unregister_removes_all (env_of []) (monitor None)
                         hookA_encoded BodyRejected (Webhook.url hookA) eq_refl))).
Defined.

(** Witness of X7: a truncated escape sequence. *)
Lemma fetch_unregister_malformed_witness :
  URI.decodeURIComponent (lit "%E0%A4%A") = None
  /\ fetch (env_of []) (delete (lit "/webhook/" ++ lit "%E0%A4%A")) (monitor None) =
     mkRun (Throw URIError) (monitor None) [].
Proof.
  split; [reflexivity |].
  exact (fetch_unregister_malformed (env_of []) (monitor None) (lit "%E0%A4%A")
           BodyRejected eq_refl).
Defined.

(** Witness of X8: a url with a space and a non-ASCII letter. *)
Lemma fetch_register_then_unregister_witness :
  (subscribed hookC_url (monitor None) = []
   /\ isString hookC_url = true
   /\ encodeURIComponent hookC_url = Some hookC_encoded)
  /\ webhooks (this (run (env_of [])
                        [Http (register hookC_url (lit "k"));
                         Http (delete (lit "/webhook/" ++ hookC_encoded))]
                        (monitor None)))
     = [hookA; hookB].
Proof.
  split; [repeat split |].
  exact (proj1 (fetch_register_then_unregister (env_of []) (monitor None) hookC_url
                  (lit "k") hookC_encoded BodyRejected eq_refl eq_refl
                  (or_introl eq_refl))).
Defined.

(** Witness of X10: [/start] is a route of POST only. *)
Lemma fetch_unknown_route_witness :
  routed (lit "GET") (lit "/start") = false
  /\ fetch (env_of []) (get "/start") (stopped None) =
     mkRun (Return (Response.mk 404 false (Text (lit "Not found")))) (stopped None) [].
Proof.
  split; [reflexivity |].
  exact (fetch_unknown_route (env_of []) (stopped None) (lit "GET") (lit "/start")
           BodyRejected eq_refl).
Defined.

(** Witness of X17: a registration, a wake, a deletion, then a restart. *)
Lemma restart_restores_control_state_witness :
  (mirrored (monitor (Some 3%Z)) /\ marker_kept (monitor (Some 3%Z)))
  /\ webhooks (this (world (constructor (env_of [e5; e4; e3]) None
       (run (env_of [e5; e4; e3])
            [Http (register hookC_url []); Wake;
             Http (delete (lit "/webhook/" ++ hookA_encoded))]
            (monitor (Some 3%Z))))))
     = [hookB; Webhook.mk [] hookC_url]
  /\ lastAnnouncementId (this (world (constructor (env_of [e5; e4; e3]) None
       (run (env_of [e5; e4; e3])
            [Http (register hookC_url []); Wake;
             Http (delete (lit "/webhook/" ++ hookA_encoded))]
            (monitor (Some 3%Z))))))
     = Some 5%Z.
Proof.
  assert (Hm : mirrored (monitor (Some 3%Z))) by (repeat split).
  assert (Hk : marker_kept (monitor (Some 3%Z))) by reflexivity.
  split; [split; assumption |].
  destruct (restart_restores_control_state (env_of [e5; e4; e3])
              [Http (register hookC_url []); Wake;
               Http (delete (lit "/webhook/" ++ hookA_encoded))]
              (monitor (Some 3%Z)) None Hm Hk) as (H1 & _ & _ & H4).
  split; [exact (eq_trans H1 eq_refl) | exact (eq_trans H4 eq_refl)].
Defined.

(** Witness of X18: the notifier throws on the first entry of the walk. *)
Lemma alarm_writes_marker_once_witness :
  all_wellFormed (walked (env_of [e5_malformed; e4_listing; e3]) (monitor (Some 3%Z)))
  = false
  /\ persisted (effects (alarm (env_of [e5_malformed; e4_listing; e3])
                               (monitor (Some 3%Z)))) = []
  /\ lastAnnouncementId
       (this (world (alarm (env_of [e5_malformed; e4_listing; e3]) (monitor (Some 3%Z)))))
     = Some 3%Z
  /\ st_lastAnnouncementId
       (storage (world (alarm (env_of [e5_malformed; e4_listing; e3])
                              (monitor (Some 3%Z)))))
     = Some 3%Z.
Proof.
  split; [reflexivity |].
  exact (proj2 (proj2 (proj2 (alarm_writes_marker_once
                                (env_of [e5_malformed; e4_listing; e3])
                                (monitor (Some 3%Z))))) eq_refl).
Defined.

(** Witness of X19: the scenario of the specification, with a malformed
    listing behind the boundary, polled twice. *)
Lemma alarm_stable_feed_is_silent_witness :
  (all_wellFormed (walked (env_of [e5; e4; e3; e2_malformed]) (monitor (Some 3%Z))) = true
   /\ fetched (env_of [e5; e4; e3; e2_malformed])
              (world (alarm (env_of [e5; e4; e3; e2_malformed]) (monitor (Some 3%Z)))) =
      fetched (env_of [e5; e4; e3; e2_malformed]) (monitor (Some 3%Z)))
  /\ notified (effects (alarm (env_of [e5; e4; e3; e2_malformed])
                 (world (alarm (env_of [e5; e4; e3; e2_malformed]) (monitor (Some 3%Z))))))
     = []
  /\ persisted (effects (alarm (env_of [e5; e4; e3; e2_malformed])
                  (world (alarm (env_of [e5; e4; e3; e2_malformed]) (monitor (Some 3%Z))))))
     = []
  /\ lastAnnouncementId
       (this (world (alarm (env_of [e5; e4; e3; e2_malformed])
                (world (alarm (env_of [e5; e4; e3; e2_malformed]) (monitor (Some 3%Z)))))))
     = Some 5%Z.
Proof.
  split; [split; reflexivity |].
  destruct (alarm_stable_feed_is_silent (env_of [e5; e4; e3; e2_malformed])
              (monitor (Some 3%Z)) eq_refl eq_refl) as (Hn & Hp & Hl).
  split; [exact Hn |]. split; [exact Hp |]. exact (eq_trans Hl eq_refl).
Defined.

(** Witness of X20: a listing with an unpaired surrogate at the head of
    the snapshot. *)
Lemma alarm_throwing_cycle_repeats_witness :
  (lastAnnouncementId (this (monitor (Some 3%Z))) = Some 3%Z
   /\ In e5_malformed
         (before 3 (fetched (env_of [e5_malformed; e4_listing; e3]) (monitor (Some 3%Z))))
   /\ has_marker e5_malformed = true
   /\ isWellFormed (Announcement.title e5_malformed) = false
   /\ fetched (env_of [e5_malformed; e4_listing; e3])
              (world (alarm (env_of [e5_malformed; e4_listing; e3]) (monitor (Some 3%Z)))) =
      fetched (env_of [e5_malformed; e4_listing; e3]) (monitor (Some 3%Z)))
  /\ notified (effects (alarm (env_of [e5_malformed; e4_listing; e3])
        (world (alarm (env_of [e5_malformed; e4_listing; e3]) (monitor (Some 3%Z))))))
     = notified (effects (alarm (env_of [e5_malformed; e4_listing; e3])
                                (monitor (Some 3%Z)))).
Proof.
  assert (Hin : In e5_malformed
                   (before 3 (fetched (env_of [e5_malformed; e4_listing; e3])
                                      (monitor (Some 3%Z)))))
    by (left; reflexivity).
  split; [repeat split; exact Hin |].
  exact (proj1 (proj2 (proj2 (alarm_throwing_cycle_repeats
                                (env_of [e5_malformed; e4_listing; e3])
                                (monitor (Some 3%Z)) 3%Z e5_malformed
                                eq_refl Hin eq_refl eq_refl eq_refl)))).
Defined.

(** The listing test is case-sensitive. *)
Example scenario_marker_case :
  has_marker (entry 7 (lit "BINANCE WILL LIST ABC")) = false
  /\ has_marker (entry 7 (lit "Notice: Binance Will List ABC")) = true.
Proof. split; reflexivity. Qed.

End MoreRuns.
